(** * Boustrophedon coverage planner

    A shallow embedding of [boustrophedonExplorer::getExplorationPath]
    (ipa_room_exploration/common/src/boustrophedon_explorator.cpp) and the
    properties of its four stages:

    - I.   the sweep that marks the cell boundaries in a copy of the map,
    - II.  the extraction of the cells (OpenCV's contour finder, a collaborator),
    - III. the boustrophedon lines of every cell and the path through them,
    - IV.  the conversion of the field-of-view path to the returned poses.

    Conventions.  A [cv::Mat] of [uchar] is a list of rows, each a list of
    pixel values in [Z]; 255 is a free (white) pixel and 0 an obstacle (black)
    pixel.  C++ [int] and [size_t] values are integers of [Z] or counters of
    [nat]; signed overflow is undefined in C++, so the model describes the
    executions whose coordinates stay inside the range of [int].  A [double]
    or [float] is an exact rational of [Q]; where a property depends on the
    rounding of a [float], the expression is also given on the binary64
    numbers of the machine and the two are compared.  Loops that the source
    cannot leave for some inputs take a [fuel] argument and return [None]
    when it runs out. *)

From Stdlib Require Import ZArith QArith Qround Qabs Lia List Bool.
From Stdlib Require Import Floats.PrimFloat Floats.SpecFloat Floats.FloatOps.
From stdpp Require Import base tactics option list.
Import ListNotations.
Local Open Scope Z_scope.

(** ** The occupancy grid *)

Abbreviation Mat := (list (list Z)).

Definition FREE : Z := 255.
Definition OBSTACLE : Z := 0.

Definition rows (m : Mat) : nat := length m.

Definition cols (m : Mat) : nat :=
  match m with
  | [] => 0%nat
  | r :: _ => length r
  end.

(** Every row has [cols] pixels. *)
Definition rectangular (m : Mat) : Prop :=
  Forall (fun r => length r = cols m) m.

(** Every pixel is FREE or OBSTACLE, as the spec's Grid has it. *)
Definition binary (m : Mat) : Prop :=
  Forall (Forall (fun v => v = OBSTACLE \/ v = FREE)) m.

Definition has_free (r : list Z) : bool := existsb (fun v => v =? 255) r.

Definition no_free (m : Mat) : Prop :=
  Forall (Forall (fun v => v <> FREE)) m.

(** ** Points, lines and poses *)

(** [cv::Point]; its default constructor gives (0,0). *)
Record Point := mkPoint { pt_x : Z; pt_y : Z }.

Definition default_point : Point := mkPoint 0 0.

(** A cell is kept as the vertex list of its contour: [generalizedPolygon]
    is built from it and [getVertexes] hands it back. *)
Abbreviation Polygon := (list Point) (only parsing).

Record boustrophedonHorizontalLine := mkLine {
  left_edge_ : Point;
  right_edge_ : Point
}.

(** [geometry_msgs::Pose2D]. *)
Record Pose2D := mkPose { pose_x : Q; pose_y : Q; pose_theta : Q }.

(** [a < b] on doubles. *)
Definition Qltb (a b : Q) : bool := negb (Qle_bool b a).

(** [cv::norm(a - b) >= eps] for integer points and an integer [eps]: the
    square root of an integer is at least a positive integer exactly when the
    integer is at least its square, and a norm is never below [eps <= 0]. *)
Definition norm_ge (a b : Point) (eps : Z) : bool :=
  (eps <=? 0) ||
  (eps * eps <=? (pt_x a - pt_x b) * (pt_x a - pt_x b)
                 + (pt_y a - pt_y b) * (pt_y a - pt_y b)).

Section Planner.

Set Default Proof Using "Type".

(** [room_map.at<uchar>(y,x)] does not check its indices in a release build:
    an access outside the matrix reads whatever byte lies there.  [stray y x]
    is that byte; every statement below holds for each choice of it. *)
Variable stray : Z -> Z -> Z.

Definition at_ (m : Mat) (y x : Z) : Z :=
  if (0 <=? y) && (0 <=? x) then
    match m !! Z.to_nat y with
    | Some r =>
        match r !! Z.to_nat x with
        | Some v => v
        | None => stray y x
        end
    | None => stray y x
    end
  else stray y x.

(** The pixels visited by [for(x=0; x<room_map.cols; ++x) room_map.at(y,x)]. *)
Definition row_pixels (m : Mat) (y : nat) : list Z :=
  map (fun x : nat => at_ m (Z.of_nat y) (Z.of_nat x)) (seq 0 (cols m)).

(** ** I. The sweep *)

(** *** Initialisation (source lines 47-73) *)

Record init_state := mkInit {
  y_start : nat;
  n_start : Z;
  found : bool;
  obstacle : bool
}.

Definition init_pixel (y : nat) (s : init_state) (v : Z) : init_state :=
  if (v =? 255) && negb (found s) then
    mkInit y (n_start s) true (obstacle s)
  else if found s && negb (obstacle s) && (v =? 0) then
    mkInit (y_start s) (n_start s + 1) (found s) true
  else if found s && obstacle s && (v =? 255) then
    mkInit (y_start s) (n_start s) (found s) false
  else s.

(** [k] rows are left to look at, the next one is row [y]; the loop is left
    after the first row in which a white pixel was found. *)
Fixpoint init_rows (m : Mat) (k y : nat) (s : init_state) : init_state :=
  match k with
  | O => s
  | S k' =>
      let s' := fold_left (init_pixel y) (row_pixels m y) s in
      if found s' then s' else init_rows m k' (S y) s'
  end.

Definition find_start (m : Mat) : init_state :=
  init_rows m (rows m) 0 (mkInit 0 0 false false).

(** *** The number of segments of a slice (source lines 79-100) *)

Record slice_state := mkSlice {
  hit_white_pixel : bool;
  obstacle_hit : bool;
  number_of_segments : Z
}.

Definition count_pixel (s : slice_state) (v : Z) : slice_state :=
  if (v =? 255) && negb (hit_white_pixel s) then
    mkSlice true (obstacle_hit s) (number_of_segments s)
  else if hit_white_pixel s then
    if negb (obstacle_hit s) && (v =? 0) then
      mkSlice (hit_white_pixel s) true (number_of_segments s + 1)
    else if obstacle_hit s && (v =? 255) then
      mkSlice (hit_white_pixel s) false (number_of_segments s)
    else s
  else s.

Definition count_segments (m : Mat) (y : nat) : Z :=
  number_of_segments
    (fold_left count_pixel (row_pixels m y) (mkSlice false false 0)).

(** *** Painting a separation (source lines 127-143 and 169-185) *)

(** [for(dx=-1; x+dx>0; --dx)]: [c] is the column [x+dx]; column 0 is never
    reached.  A pixel that is neither white nor black is stepped over. *)
Fixpoint paint_left (r : list Z) (c : nat) : list Z :=
  match c with
  | O => r
  | S c' =>
      match r !! c with
      | Some v =>
          if v =? 255 then paint_left (<[c := 0]> r) c'
          else if v =? 0 then r
          else paint_left r c'
      | None => r
      end
  end.

(** [for(dx=1; x+dx<room_map.cols; ++dx)]: [c] is the column [x+dx] and [k]
    the number of columns from [c] to the last one. *)
Fixpoint paint_right (r : list Z) (c k : nat) : list Z :=
  match k with
  | O => r
  | S k' =>
      match r !! c with
      | Some v =>
          if v =? 255 then paint_right (<[c := 0]> r) (S c) k'
          else if v =? 0 then r
          else paint_right r (S c) k'
      | None => r
      end
  end.

Definition paint_row (width : nat) (r : list Z) (x : nat) : list Z :=
  paint_right (paint_left r (pred x)) (S x) (width - S x).

Definition paint (width : nat) (cell_map : Mat) (y x : nat) : Mat :=
  match cell_map !! y with
  | Some r => <[y := paint_row width r x]> cell_map
  | None => cell_map
  end.

(** *** Critical points (source lines 109-146 and 151-188) *)

(** The three reads of [for(dx=-1; dx<=1; ++dx)] in the row [yc]. *)
Definition stencil_columns (x : Z) : list Z := [x - 1; x; x + 1].

Definition critical_point (room_map : Mat) (yc x : Z) : bool :=
  forallb (fun c => negb (at_ room_map yc c =? 0)) (stencil_columns x).

(** The state of the second pass over a slice; [probes] records, in order,
    the (row, column) indices the stencil has read. *)
Record mark_state := mkMark {
  hit : bool;
  cell_map : Mat;
  probes : list (Z * Z)
}.

(** One pixel of the pass: [ys] is the slice that is walked and painted,
    [yc] the neighbouring slice the stencil looks at.  The IN event walks
    row [y] and looks at [y-1], the OUT event walks [y-1] and looks at [y]. *)
Definition mark_pixel (room_map : Mat) (ys yc : nat) (s : mark_state) (x : nat)
  : mark_state :=
  let v := at_ room_map (Z.of_nat ys) (Z.of_nat x) in
  if (v =? 255) && negb (hit s) then
    mkMark true (cell_map s) (probes s)
  else if hit s && (v =? 0) then
    let read :=
      probes s ++ map (fun c => (Z.of_nat yc, c)) (stencil_columns (Z.of_nat x)) in
    if critical_point room_map (Z.of_nat yc) (Z.of_nat x) then
      mkMark (hit s) (paint (cols room_map) (cell_map s) ys x) read
    else
      mkMark (hit s) (cell_map s) read
  else s.

Definition mark_critical_points (room_map : Mat) (ys yc : nat)
    (cm : Mat) (pr : list (Z * Z)) : mark_state :=
  fold_left (mark_pixel room_map ys yc) (seq 0 (cols room_map))
            (mkMark false cm pr).

(** *** The loop over the slices (source lines 76-193) *)

Record sweep_state := mkSweep {
  previous_number_of_segments : Z;
  marked : Mat;
  stencil_reads : list (Z * Z)
}.

Definition sweep_row (room_map : Mat) (s : sweep_state) (y : nat) : sweep_state :=
  let n := count_segments room_map y in
  if previous_number_of_segments s <? n then
    let r := mark_critical_points room_map y (pred y) (marked s) (stencil_reads s) in
    mkSweep n (cell_map r) (probes r)
  else if n <? previous_number_of_segments s then
    let r := mark_critical_points room_map (pred y) y (marked s) (stencil_reads s) in
    mkSweep n (cell_map r) (probes r)
  else
    mkSweep n (marked s) (stencil_reads s).

Definition sweep (room_map : Mat) : sweep_state :=
  let i := find_start room_map in
  fold_left (sweep_row room_map)
            (seq (S (y_start i)) (rows room_map - S (y_start i)))
            (mkSweep (n_start i) room_map []).

(** The map handed to the contour finder. *)
Definition decompose (room_map : Mat) : Mat := marked (sweep room_map).

(** ** II. The cells (source lines 197-220) *)

(** [cv::findContours(cell_map, cells, CV_RETR_EXTERNAL, CV_CHAIN_APPROX_SIMPLE)],
    OpenCV's contour finder. *)
Variable findContours : Mat -> list Polygon.

(** The members of [generalizedPolygon] the planner calls; the class is
    declared in a header that is not part of the sources.
    [getMinMaxCoordinates] gives (min_x, max_x, min_y, max_y) and
    [drawPolygon_cols] the number of columns of the map [drawPolygon] makes. *)
Variable getCenter : Polygon -> Point.
Variable getMinMaxCoordinates : Polygon -> Z * Z * Z * Z.
Variable drawPolygon_cols : Polygon -> Z.

Definition cell_polygons (room_map : Mat) : list Polygon :=
  findContours (decompose room_map).

Definition polygon_centers (room_map : Mat) : list Point :=
  map getCenter (cell_polygons room_map).

(** ** III. The cell paths *)

(** *** The start cell and the visiting order (source lines 226-243) *)

(** [cv::pointPolygonTest(vertexes, point, false)]: positive inside, zero on
    the boundary, negative outside. *)
Variable pointPolygonTest : Polygon -> Point -> Q.

Definition contains (cell : Polygon) (p : Point) : bool :=
  Qle_bool 0 (pointPolygonTest cell p).

(** The loop has no [break]: the last cell that contains the point wins. *)
Definition min_index (cells : list Polygon) (starting_point : Point) : Z :=
  fst (fold_left
         (fun (s : Z * Z) cell =>
            (if contains cell starting_point then snd s else fst s, snd s + 1))
         cells (0, 0)).

(** [tsp_solver.solveConcordeTSP(room_map, polygon_centers, 0.25, 0.0,
    map_resolution, min_index, 0)]; the constant arguments are left out. *)
Variable solveConcordeTSP : Mat -> list Point -> Q -> Z -> list Z.

Definition optimal_order (room_map : Mat) (map_resolution : Q)
    (starting_point : Point) : list Z :=
  solveConcordeTSP room_map (polygon_centers room_map) map_resolution
                   (min_index (cell_polygons room_map) starting_point).

(** *** The horizontal lines of a cell (source lines 259-313) *)

(** [(int)(min_y + 0.5*(max_y-min_y))]: the conversion to [int] truncates
    towards zero. *)
Definition first_row (min_y max_y R : Z) : Z :=
  if (max_y - min_y) <=? 2 * R then Z.quot (2 * min_y + (max_y - min_y)) 2
  else (min_y - 1) + R.

(** The leftmost edge: [do { ... ++dx } while(dx < cols && found == false)].
    The body runs at [dx], [dx+1], ... and [k] bounds the number of runs. *)
Fixpoint scan_rightwards (room_map : Mat) (width : Z) (k : nat) (y dx : Z)
  : option Z :=
  match k with
  | O => None
  | S k' =>
      if at_ room_map y dx =? 255 then Some dx
      else if dx + 1 <? width then scan_rightwards room_map width k' y (dx + 1)
      else None
  end.

(** The rightmost edge: [do { ... --dx } while(dx > 0 && found == false)]. *)
Fixpoint scan_leftwards (room_map : Mat) (k : nat) (y dx : Z) : option Z :=
  match k with
  | O => None
  | S k' =>
      if at_ room_map y dx =? 255 then Some dx
      else if 0 <? dx - 1 then scan_leftwards room_map k' y (dx - 1)
      else None
  end.

(** An edge that is not found keeps the default-constructed point. *)
Definition find_left_edge (room_map : Mat) (width R y min_x : Z) : Point :=
  match scan_rightwards room_map width (S (Z.to_nat (width - 1 - min_x))) y min_x with
  | Some dx => mkPoint (dx + R) y
  | None => default_point
  end.

Definition find_right_edge (room_map : Mat) (R y max_x : Z) : Point :=
  match scan_leftwards room_map (S (Z.to_nat (max_x - 1))) y max_x with
  | Some dx => mkPoint (dx - R) y
  | None => default_point
  end.

Definition horizontal_line (room_map : Mat) (width R min_x max_x y : Z)
  : boustrophedonHorizontalLine :=
  mkLine (find_left_edge room_map width R y min_x)
         (find_right_edge room_map R y max_x).

(** [do { ...; path_lines.push_back(current_line); y += R; } while(y <= max_y)] *)
Fixpoint line_loop (fuel : nat) (room_map : Mat) (width R min_x max_x max_y y : Z)
  : option (list boustrophedonHorizontalLine) :=
  match fuel with
  | O => None
  | S fuel' =>
      let current_line := horizontal_line room_map width R min_x max_x y in
      if y + R <=? max_y then
        cons current_line
          <$> line_loop fuel' room_map width R min_x max_x max_y (y + R)
      else Some [current_line]
  end.

Definition path_lines (fuel : nat) (room_map : Mat) (width : Z)
    (box : Z * Z * Z * Z) (R : Z) : option (list boustrophedonHorizontalLine) :=
  let '(min_x, max_x, min_y, max_y) := box in
  line_loop fuel room_map width R min_x max_x max_y (first_row min_y max_y R).

(** *** The path through the lines of a cell (source lines 325-487) *)

(** [path_planner_.planPath(room_map, a, b, 1.0, 0.0, map_resolution)] gives
    the length of the A* path from [a] to [b]; called with a last argument
    [&astar_path] it also stores the points of the path.  The planner is a
    collaborator: [planPath_length] and [planPath_points] are its two results. *)
Variable planPath_length : Mat -> Point -> Point -> Q -> Q.
Variable planPath_points : Mat -> Point -> Point -> Q -> list Point.

(** The choice of the start corner: the result is
    ([start_from_upper_path], [left]). *)
Definition select_entry (dist1 dist2 dist3 dist4 : Q) : bool * bool :=
  if (Qltb dist3 dist1 && Qltb dist3 dist2) || (Qltb dist4 dist1 && Qltb dist4 dist2)
  then (false, negb (Qltb dist4 dist3))
  else (true, negb (Qltb dist2 dist1)).

Record stitch_state := mkStitch {
  robot_pos : Point;
  left : bool;
  fow_middlepoint_path : list Point
}.

(** One point of the A* path: kept when it is at least [path_eps] away from
    the running robot position. *)
Definition follow (path_eps : Z) (s : Point * list Point) (p : Point)
  : Point * list Point :=
  if norm_ge (fst s) p path_eps then (p, snd s ++ [p]) else s.

(** [while((left.x+dx) < right.x) { push (left.x+dx, left.y); dx += path_eps; }] *)
Fixpoint walk_right (fuel : nat) (l r : Point) (path_eps dx : Z)
  : option (list Point) :=
  match fuel with
  | O => None
  | S fuel' =>
      if pt_x l + dx <? pt_x r then
        cons (mkPoint (pt_x l + dx) (pt_y l))
          <$> walk_right fuel' l r path_eps (dx + path_eps)
      else Some []
  end.

(** [while((right.x+dx) > left.x) { push (right.x+dx, right.y); dx -= path_eps; }] *)
Fixpoint walk_left (fuel : nat) (l r : Point) (path_eps dx : Z)
  : option (list Point) :=
  match fuel with
  | O => None
  | S fuel' =>
      if pt_x l <? pt_x r + dx then
        cons (mkPoint (pt_x r + dx) (pt_y r))
          <$> walk_left fuel' l r path_eps (dx - path_eps)
      else Some []
  end.

(** The body of the loop over the lines, after the [start] block. *)
Definition trace_line (fuel : nat) (room_map : Mat) (map_resolution : Q)
    (path_eps : Z) (s : stitch_state) (line : boustrophedonHorizontalLine)
  : option stitch_state :=
  if left s then
    let astar_path :=
      planPath_points room_map (robot_pos s) (left_edge_ line) map_resolution in
    let via := fold_left (follow path_eps) astar_path
                         (robot_pos s, fow_middlepoint_path s) in
    between ← walk_right fuel (left_edge_ line) (right_edge_ line) path_eps path_eps;
    Some (mkStitch (right_edge_ line) false
            (snd via ++ [left_edge_ line] ++ between ++ [right_edge_ line]))
  else
    let astar_path :=
      planPath_points room_map (robot_pos s) (right_edge_ line) map_resolution in
    let via := fold_left (follow path_eps) astar_path
                         (robot_pos s, fow_middlepoint_path s) in
    between ← walk_left fuel (left_edge_ line) (right_edge_ line) path_eps (- path_eps);
    Some (mkStitch (left_edge_ line) true
            (snd via ++ [right_edge_ line] ++ between ++ [left_edge_ line])).

Fixpoint trace_lines (fuel : nat) (room_map : Mat) (map_resolution : Q)
    (path_eps : Z) (s : stitch_state) (lines : list boustrophedonHorizontalLine)
  : option stitch_state :=
  match lines with
  | [] => Some s
  | line :: rest =>
      s' ← trace_line fuel room_map map_resolution path_eps s line;
      trace_lines fuel room_map map_resolution path_eps s' rest
  end.

(** The corner the robot is put on by the [start] block. *)
Definition entry_corner (left : bool) (line : boustrophedonHorizontalLine) : Point :=
  if left then left_edge_ line else right_edge_ line.

(** The lines in the order of the loop that is taken: the forward iterator
    from the upper line, the reverse iterator from the lower one. *)
Definition line_order (start_from_upper_path : bool)
    (lines : list boustrophedonHorizontalLine) : list boustrophedonHorizontalLine :=
  if start_from_upper_path then lines else rev lines.

(** The four distances of source lines 329-332 and the choice made of them. *)
Definition entry_of (room_map : Mat) (map_resolution : Q) (pos : Point)
    (first last : boustrophedonHorizontalLine) : bool * bool :=
  select_entry
    (planPath_length room_map pos (left_edge_ first) map_resolution)
    (planPath_length room_map pos (right_edge_ first) map_resolution)
    (planPath_length room_map pos (left_edge_ last) map_resolution)
    (planPath_length room_map pos (right_edge_ last) map_resolution).

(** The path of one cell, from its lines; [pos] is the robot position left
    by the cell before and [path] the points collected so far. *)
Definition stitch_cell (fuel : nat) (room_map : Mat) (map_resolution : Q)
    (path_eps : Z) (pos : Point) (path : list Point)
    (lines : list boustrophedonHorizontalLine) : option stitch_state :=
  match lines, last lines with
  | first :: _, Some lowest =>
      let '(start_from_upper_path, left) :=
        entry_of room_map map_resolution pos first lowest in
      match line_order start_from_upper_path lines with
      | [] => None
      | (entry :: _) as ordered =>
          trace_lines fuel room_map map_resolution path_eps
            (mkStitch (entry_corner left entry) left path) ordered
      end
  | _, _ => None
  end.

(** One turn of the loop over the cells (source lines 250-488). *)
Definition plan_cell (fuel : nat) (room_map : Mat) (map_resolution : Q)
    (R path_eps : Z) (pos : Point) (path : list Point) (current_cell : Polygon)
  : option stitch_state :=
  lines ← path_lines fuel room_map (drawPolygon_cols current_cell)
                     (getMinMaxCoordinates current_cell) R;
  stitch_cell fuel room_map map_resolution path_eps pos path lines.

(** [cell_polygons[optimal_order[cell]]] for [cell] = 0, 1, ...: an index
    outside either vector has no defined result. *)
Fixpoint plan_cells (fuel : nat) (room_map : Mat) (map_resolution : Q)
    (R path_eps : Z) (cells : list Polygon) (order : list Z)
    (visits : list nat) (pos : Point) (path : list Point)
  : option (list Point) :=
  match visits with
  | [] => Some path
  | cell :: rest =>
      i ← order !! cell;
      current_cell ← (if 0 <=? i then cells !! Z.to_nat i else None);
      s ← plan_cell fuel room_map map_resolution R path_eps pos path current_cell;
      plan_cells fuel room_map map_resolution R path_eps cells order rest
                 (robot_pos s) (fow_middlepoint_path s)
  end.

(** [fow_radius_as_int = (int) std::floor(fitting_circle_radius)] *)
Definition fow_radius_as_int (fitting_circle_radius : Q) : Z :=
  Qfloor fitting_circle_radius.

Definition fow_path (fuel : nat) (room_map : Mat) (map_resolution : Q)
    (starting_position : Point) (fitting_circle_radius : Q) (path_eps : Z)
  : option (list Point) :=
  let cells := cell_polygons room_map in
  plan_cells fuel room_map map_resolution
             (fow_radius_as_int fitting_circle_radius) path_eps cells
             (optimal_order room_map map_resolution starting_position)
             (seq 0 (length cells)) starting_position [].

(** *** Poses with an angle (source lines 499-517) *)

(** [std::atan2(vector.y, vector.x)], stored in a [float]. *)
Variable atan2 : Z -> Z -> Q.

Definition pose_at (path : list Point) (point_index : nat) (current_point : Point)
  : Pose2D :=
  let next_point :=
    nth ((point_index + 1) mod length path)%nat path default_point in
  mkPose (inject_Z (pt_x current_point)) (inject_Z (pt_y current_point))
         (atan2 (pt_y next_point - pt_y current_point)
                (pt_x next_point - pt_x current_point)).

Definition fow_poses (path : list Point) : list Pose2D :=
  imap (pose_at path) path.

(** ** IV. The returned path (source lines 521-538) *)

(** [mapPath(room_map, path, fow_poses, robot_to_fow_vector, map_resolution,
    map_origin, starting_position)] maps the field-of-view poses to robot
    poses; it is defined in another file.  Its result is the vector [path]
    it leaves behind. *)
Variable mapPath :
  Mat -> list Pose2D -> list Pose2D -> Q * Q -> Q -> Q * Q -> Point -> list Pose2D.

Definition to_world (map_resolution : Q) (map_origin : Q * Q) (pose : Pose2D)
  : Pose2D :=
  mkPose (pose_x pose * map_resolution + fst map_origin)%Q
         (pose_y pose * map_resolution + snd map_origin)%Q
         (pose_theta pose).

(** The expression of the lines 527 and 528 on the doubles of the machine:
    [pose->x] and [map_origin.x] are doubles, and the [float]
    [map_resolution] is converted to a double, which holds every float
    exactly, before the product; the product and the sum are rounded to the
    nearest double. *)
Definition world_coordinate (grid_coordinate map_resolution origin : float)
  : float :=
  (grid_coordinate * map_resolution + origin)%float.

(** [path] is the vector the caller passes by reference; the result is its
    content when the function returns. *)
Definition getExplorationPath (fuel : nat) (room_map : Mat) (path : list Pose2D)
    (map_resolution : Q) (starting_position : Point) (map_origin : Q * Q)
    (fitting_circle_radius : Q) (path_eps : Z) (plan_for_footprint : bool)
    (robot_to_fow_vector : Q * Q) : option (list Pose2D) :=
  points ← fow_path fuel room_map map_resolution starting_position
                    fitting_circle_radius path_eps;
  if plan_for_footprint then
    Some (path ++ map (to_world map_resolution map_origin) (fow_poses points))
  else
    Some (mapPath room_map path (fow_poses points) robot_to_fow_vector
                  map_resolution map_origin starting_position).

(** ** Notions the properties are stated with *)

(** The number of maximal runs of obstacle pixels in a list of pixels: a run
    ends at an obstacle pixel that no obstacle pixel follows. *)
Fixpoint obstacle_runs (r : list Z) : Z :=
  match r with
  | [] => 0
  | v :: tl =>
      (if (v =? 0) && negb (match tl with w :: _ => w =? 0 | [] => false end)
       then 1 else 0) + obstacle_runs tl
  end.

(** The row from its first free pixel on. *)
Fixpoint after_first_free (r : list Z) : list Z :=
  match r with
  | [] => []
  | v :: tl => if v =? 255 then r else after_first_free tl
  end.

(** The row from its first to its last free pixel. *)
Definition between_first_and_last_free (r : list Z) : list Z :=
  rev (after_first_free (rev (after_first_free r))).

(** The obstacle runs that the specification counts for [n_start]: those
    lying between the first and the last free pixel of the row. *)
Definition runs_between_free (r : list Z) : Z :=
  obstacle_runs (between_first_and_last_free r).

(** Modelled from the spec: the bounding box (min_x, max_x, min_y, max_y) of
    the one cell of a grid that is free everywhere.  The contour finder and
    [generalizedPolygon::getMinMaxCoordinates] are not part of the sources;
    the specification takes the box as the minimum and maximum of the vertex
    coordinates of the region's boundary, and its scenario of the free 20x10
    rectangle has min_y = 0 and max_x = 19, the whole grid. *)
Definition whole_grid_box (m : Mat) : Z * Z * Z * Z :=
  (0, Z.of_nat (cols m) - 1, 0, Z.of_nat (rows m) - 1).

(** The offsets [k * path_eps], k = 1, 2, ..., that stay below [span]. *)
Definition strides (path_eps span : Z) : list Z :=
  map (fun k => k * path_eps) (seqZ 1 ((span - 1) / path_eps)).

(** The waypoints of one pass over a line: from the left edge to the right
    one when [left] holds, from the right edge to the left one otherwise. *)
Definition pass (path_eps : Z) (left : bool) (line : boustrophedonHorizontalLine)
  : list Point :=
  let l := left_edge_ line in
  let r := right_edge_ line in
  if left then
    l :: map (fun d => mkPoint (pt_x l + d) (pt_y l)) (strides path_eps (pt_x r - pt_x l))
      ++ [r]
  else
    r :: map (fun d => mkPoint (pt_x r - d) (pt_y r)) (strides path_eps (pt_x r - pt_x l))
      ++ [l].

(** A serpentine path over [lines]: for every line, in order, some points
    that lead to it and then one pass over it, the direction of the pass
    changing from each line to the next. *)
Inductive serpentine (path_eps : Z)
  : bool -> list boustrophedonHorizontalLine -> list Point -> Prop :=
| serpentine_nil left : serpentine path_eps left [] []
| serpentine_cons left line rest via pts :
    serpentine path_eps (negb left) rest pts ->
    serpentine path_eps left (line :: rest) (via ++ pass path_eps left line ++ pts).

(** The pixel of row [y] and column [x], when the map has one there. *)
Definition pixel (m : Mat) (y x : nat) : option Z :=
  match m !! y with
  | Some r => r !! x
  | None => None
  end.

(** [b] is [a] with some free pixels painted black. *)
Definition darkened_pixel (a b : Z) : Prop := b = a \/ (a = FREE /\ b = OBSTACLE).
Definition darkened_row (a b : list Z) : Prop := Forall2 darkened_pixel a b.
Definition darkened (a b : Mat) : Prop := Forall2 darkened_row a b.

(** The rows of the candidate lines of a cell: the first row, then every
    [R]-th row while it is not below [max_y]. *)
Fixpoint candidate_rows (fuel : nat) (R max_y y : Z) : option (list Z) :=
  match fuel with
  | O => None
  | S fuel' =>
      if y + R <=? max_y then cons y <$> candidate_rows fuel' R max_y (y + R)
      else Some [y]
  end.

(** The fuel is enough for the walk along the line. *)
Definition line_fits (fuel : nat) (line : boustrophedonHorizontalLine) : Prop :=
  Z.max 1 (pt_x (right_edge_ line) - pt_x (left_edge_ line)) < Z.of_nat fuel.

(** The double [f] is a finite number, and the rational [q] is its value. *)
Definition binary64_is (f : float) (q : Q) : Prop :=
  match Prim2SF f with
  | S754_zero _ => (q == 0)%Q
  | S754_finite s m e =>
      (q == (if s then -1 else 1) * inject_Z (Z.pos m) * 2 ^ e)%Q
  | _ => False
  end.

(** [q] is the value of a finite [float]: an integer of less than 24 bits
    times a power of two in the range of the binary32 format. *)
Definition binary32 (q : Q) : Prop :=
  exists m e, Z.abs m < 2 ^ 24 /\ -149 <= e <= 104 /\
              (q == inject_Z m * 2 ^ e)%Q.

(** [f] gives [v] for every fuel from some amount on: the computation ends
    with the result [v]. *)
Definition settles {A} (f : nat -> option A) (v : A) : Prop :=
  exists N, forall fuel, (N <= fuel)%nat -> f fuel = Some v.


(** ** Rooms and collaborators of the examples *)

Definition no_stray (y x : Z) : Z := 0.

(** A room of [w] columns and [h] rows that is free everywhere. *)
Definition free_room (w h : nat) : Mat := repeat (repeat 255 w) h.

Definition corridor : Mat := free_room 50 4.
Definition square100 : Mat := free_room 100 100.

(** Twenty lines from x = 5 to x = 94, in the rows 4, 9, ..., 99. *)
Definition square100_lines : list boustrophedonHorizontalLine :=
  map (fun k => mkLine (mkPoint 5 (4 + 5 * k)) (mkPoint 94 (4 + 5 * k))) (seqZ 0 20).

(** A free block of 10 columns and 5 rows inside a wall of obstacle pixels:
    the free pixels are the columns 1..10 of the rows 1..5. *)
Definition walled_room : Mat :=
  repeat 0 12 :: repeat (0 :: repeat 255 10 ++ [0]) 5 ++ [repeat 0 12].

(** Row 1 has its only free pixel in column 0. *)
Definition nook : Mat := [[255; 255]; [255; 0]].

(** The obstacle run of row 0 reaches the end of the row. *)
Definition dead_end : Mat := [[0; 255; 255; 0]; [255; 255; 255; 255]].

(** An obstacle appears in the middle of row 1: an IN event. *)
Definition pillar : Mat :=
  [[255; 255; 255; 255]; [255; 0; 255; 255]; [255; 0; 255; 255]].

(** An obstacle appears in the last column of row 1. *)
Definition notch : Mat := [[255; 255; 255]; [255; 255; 0]].

(** A contour finder for the examples: the corners of the whole grid when
    some pixel is not zero, nothing otherwise. *)
Definition corners_of (m : Mat) : list Polygon :=
  if forallb (forallb (fun v => v =? 0)) m then []
  else [[mkPoint 0 0; mkPoint 0 (Z.of_nat (rows m) - 1);
         mkPoint (Z.of_nat (cols m) - 1) (Z.of_nat (rows m) - 1);
         mkPoint (Z.of_nat (cols m) - 1) 0]].

(** Two cells side by side, whatever the map. *)
Definition two_cells (m : Mat) : list Polygon :=
  [[mkPoint 0 0; mkPoint 0 9; mkPoint 4 9; mkPoint 4 0];
   [mkPoint 5 0; mkPoint 5 9; mkPoint 9 9; mkPoint 9 0]].

(** A point-in-polygon test for polygons that are boxes given by two
    opposite corners first and third: 1 inside or on the boundary, -1 outside. *)
Definition box_test (cell : Polygon) (p : Point) : Q :=
  match cell with
  | a :: _ :: c :: _ =>
      if (pt_x a <=? pt_x p) && (pt_x p <=? pt_x c)
         && (pt_y a <=? pt_y p) && (pt_y p <=? pt_y c)
      then 1%Q else (-1)%Q
  | _ => (-1)%Q
  end.

(** The tour that starts at [start] and then takes the other nodes in order. *)
Definition tour_from (m : Mat) (nodes : list Point) (resolution : Q) (start : Z)
  : list Z :=
  start :: filter (fun i => i ≠ start) (seqZ 0 (Z.of_nat (length nodes))).

(** The length of the path along the axes, in cells. *)
Definition city_block (m : Mat) (a b : Point) (resolution : Q) : Q :=
  inject_Z (Z.abs (pt_x a - pt_x b) + Z.abs (pt_y a - pt_y b)).

(** The A* path of the examples: the start and the goal. *)
Definition straight_to (m : Mat) (a b : Point) (resolution : Q) : list Point :=
  [a; b].

(** Modelled from the spec: [generalizedPolygon::getMinMaxCoordinates], the
    bounding box of a cell as the least and the greatest coordinates of its
    vertices. *)
Definition vertex_box (cell : Polygon) : Z * Z * Z * Z :=
  match cell with
  | [] => (0, 0, 0, 0)
  | p :: rest =>
      (fold_right Z.min (pt_x p) (map pt_x rest),
       fold_right Z.max (pt_x p) (map pt_x rest),
       fold_right Z.min (pt_y p) (map pt_y rest),
       fold_right Z.max (pt_y p) (map pt_y rest))
  end.

(** The first vertex, for the centre of a cell. *)
Definition first_vertex (cell : Polygon) : Point := hd default_point cell.

(** A room of 3 columns and 2 rows without a free pixel. *)
Definition black_room : Mat := repeat (repeat 0 3) 2.

(** The resolution 0.05 as the [float] parameter holds it: the float nearest
    to 1/20 is 13421773 / 2^28, written 0x1.99999ap-5; as a rational and as
    the double it is converted to. *)
Definition resolution_0_05f_value : Q := 13421773 # 268435456.
Definition resolution_0_05f : float := 0x1.99999ap-5%float.

(** A mapping that subtracts the offset vector from every field-of-view pose. *)
Definition shift_path (m : Mat) (path fow : list Pose2D) (v : Q * Q)
    (resolution : Q) (origin : Q * Q) (start : Point) : list Pose2D :=
  path ++ map (fun p => mkPose (pose_x p - fst v)%Q (pose_y p - snd v)%Q (pose_theta p)) fow.

(** A room with a wall along its right border and no event. *)
Definition right_wall : Mat := [[255; 255; 0]; [255; 255; 0]].

(** A row with obstacle pixels in the columns 1 and 5. *)
Definition fenced_row : list Z := [255; 0; 255; 255; 255; 0; 255].

(** Two cells that share the points of the column x = 5. *)
Definition touching_cells : list Polygon :=
  [[mkPoint 0 0; mkPoint 0 9; mkPoint 5 9; mkPoint 5 0];
   [mkPoint 5 0; mkPoint 5 9; mkPoint 9 9; mkPoint 9 0]].


(** ** Reading a rectangular map *)

Lemma map_lookup_seq (r : list Z) (f : nat -> Z) :
  (forall x v, r !! x = Some v -> f x = v) ->
  map f (seq 0 (length r)) = r.
Proof.
  revert f. induction r as [|v r IH]; intros f Hf; [reflexivity|].
  cbn [length seq map]. f_equal.
  - apply Hf. reflexivity.
  - rewrite <- seq_shift, map_map. apply IH.
    intros x w Hx. apply Hf. exact Hx.
Qed.

Lemma rectangular_lookup (m : Mat) (y : nat) (r : list Z) :
  rectangular m -> m !! y = Some r -> length r = cols m.
Proof.
  intros Hm Hy. unfold rectangular in Hm.
  rewrite Forall_forall in Hm. apply Hm.
  eapply list_elem_of_lookup_2. exact Hy.
Qed.

Lemma at_lookup (m : Mat) (y x : nat) (r : list Z) (v : Z) :
  m !! y = Some r -> r !! x = Some v -> at_ m (Z.of_nat y) (Z.of_nat x) = v.
Proof.
  intros Hy Hx. unfold at_.
  replace ((0 <=? Z.of_nat y) && (0 <=? Z.of_nat x)) with true
    by (symmetry; apply andb_true_iff; split; apply Z.leb_le; lia).
  rewrite !Nat2Z.id, Hy, Hx. reflexivity.
Qed.

Lemma row_pixels_lookup (m : Mat) (y : nat) (r : list Z) :
  rectangular m -> m !! y = Some r -> row_pixels m y = r.
Proof.
  intros Hm Hy. unfold row_pixels.
  rewrite <- (rectangular_lookup m y r Hm Hy).
  apply map_lookup_seq. intros x v Hx. eapply at_lookup; eassumption.
Qed.

(** ** The start of the sweep *)

Lemma init_fold_found (y : nat) (l : list Z) :
  Forall (fun v => v = OBSTACLE \/ v = FREE) l ->
  forall s, found s = true ->
    let s' := fold_left (init_pixel y) l s in
    y_start s' = y_start s /\ found s' = true /\
    n_start s' = n_start s + obstacle_runs l
                 - (if obstacle s && match l with w :: _ => w =? 0 | [] => false end
                    then 1 else 0).
Proof.
  induction 1 as [|v l Hv Hl IH]; intros s Hs; cbn [fold_left].
  - cbn. rewrite andb_false_r. repeat split; [assumption | lia].
  - cbn zeta in IH. 
    assert (Hstep : y_start (init_pixel y s v) = y_start s /\
                    found (init_pixel y s v) = true /\
                    obstacle (init_pixel y s v) = (v =? 0) /\
                    n_start (init_pixel y s v)
                    = n_start s + (if negb (obstacle s) && (v =? 0) then 1 else 0)).
    { unfold init_pixel. rewrite Hs.
      destruct Hv as [-> | ->]; unfold OBSTACLE, FREE; cbn;
        destruct (obstacle s) eqn:Eo; cbn; rewrite ?Eo; repeat split;
        first [reflexivity | assumption | lia]. }
    destruct Hstep as (Hy & Hf & Ho & Hn).
    destruct (IH _ Hf) as (IHy & IHf & IHn).
    rewrite IHy, IHf, IHn, Hy, Hn, Ho. repeat split.
    cbn [obstacle_runs].
    destruct Hv as [-> | ->]; unfold OBSTACLE, FREE; cbn;
      destruct (obstacle s); cbn;
      destruct l as [|w l]; cbn; try destruct (w =? 0); cbn; lia.
Qed.

Lemma init_fold_search (y : nat) (l : list Z) :
  Forall (fun v => v = OBSTACLE \/ v = FREE) l ->
  forall s, found s = false -> obstacle s = false ->
    let s' := fold_left (init_pixel y) l s in
    if has_free l then
      y_start s' = y /\ found s' = true /\
      n_start s' = n_start s + obstacle_runs (after_first_free l)
    else s' = s.
Proof.
  induction 1 as [|v l Hv Hl IH]; intros s Hs Ho; cbn [fold_left has_free existsb].
  - reflexivity.
  - destruct Hv as [-> | ->]; unfold OBSTACLE, FREE.
    + change (0 =? 255) with false. cbn [orb after_first_free].
      change (0 =? 255) with false. cbv iota.
      replace (init_pixel y s 0) with s
        by (unfold init_pixel; rewrite Hs; reflexivity).
      apply IH; assumption.
    + change (255 =? 255) with true. cbn [orb after_first_free].
      change (255 =? 255) with true. cbv iota.
      replace (init_pixel y s 255) with (mkInit y (n_start s) true false)
        by (unfold init_pixel; rewrite Hs, Ho; reflexivity).
      destruct (init_fold_found y l Hl (mkInit y (n_start s) true false) eq_refl)
        as (Hy & Hf & Hn).
      cbn [y_start n_start obstacle andb] in Hy, Hn.
      repeat split; [assumption | assumption |].
      rewrite Hn. cbn [obstacle_runs]. change (255 =? 0) with false. cbn. lia.
Qed.

Lemma init_rows_first_free (m : Mat) (y : nat) (r : list Z) :
  rectangular m -> binary m -> m !! y = Some r -> has_free r = true ->
  (forall y' r', (y' < y)%nat -> m !! y' = Some r' -> has_free r' = false) ->
  forall k y0 s, (y0 <= y)%nat -> (y < y0 + k)%nat ->
    found s = false -> obstacle s = false ->
    y_start (init_rows m k y0 s) = y /\
    n_start (init_rows m k y0 s) = n_start s + obstacle_runs (after_first_free r).
Proof.
  intros Hrect Hbin Hy Hfree Hbefore.
  induction k as [|k IH]; intros y0 s Hle Hlt Hs Ho; [lia|].
  cbn [init_rows].
  assert (Hlen : (y0 < length m)%nat).
  { apply lookup_lt_Some in Hy. lia. }
  destruct (lookup_lt_is_Some_2 m y0 Hlen) as [r0 Hr0].
  rewrite (row_pixels_lookup m y0 r0 Hrect Hr0).
  assert (Hr0bin : Forall (fun v => v = OBSTACLE \/ v = FREE) r0).
  { unfold binary in Hbin. rewrite Forall_forall in Hbin. apply Hbin.
    eapply list_elem_of_lookup_2. exact Hr0. }
  pose proof (init_fold_search y0 r0 Hr0bin s Hs Ho) as Hfold. cbn zeta in Hfold.
  destruct (decide (y0 = y)) as [-> | Hne].
  - assert (r0 = r) by congruence. subst r0. rewrite Hfree in Hfold.
    destruct Hfold as (Hy' & Hf' & Hn'). rewrite Hf'. split; assumption.
  - rewrite (Hbefore y0 r0) in Hfold by (lia || assumption).
    rewrite Hfold, Hs. apply IH; (lia || assumption).
Qed.

(** *** The run after the last free pixel *)

Lemma obstacle_runs_snoc_black (l : list Z) :
  obstacle_runs (l ++ [0])
  = obstacle_runs l + (if decide (last l = Some 0) then 0 else 1).
Proof.
  induction l as [|v [|w tl] IH].
  - reflexivity.
  - cbn. destruct (v =? 0) eqn:E.
    + apply Z.eqb_eq in E. subst v. reflexivity.
    + apply Z.eqb_neq in E. destruct (decide (Some v = Some 0)) as [H|H];
        [congruence | reflexivity].
  - change ((v :: w :: tl) ++ [0]) with (v :: (w :: tl) ++ [0]).
    change (obstacle_runs (v :: (w :: tl) ++ [0]))
      with ((if (v =? 0) && negb (w =? 0) then 1 else 0)
            + obstacle_runs ((w :: tl) ++ [0])).
    rewrite IH. rewrite last_cons_cons. cbn [obstacle_runs]. lia.
Qed.

Lemma after_first_free_cases (r : list Z) :
  has_free r = false /\ after_first_free r = [] \/
  has_free r = true /\ exists pre tl,
    r = pre ++ 255 :: tl /\ after_first_free r = 255 :: tl.
Proof.
  induction r as [|v r IH]; cbn [has_free existsb after_first_free].
  - left. split; reflexivity.
  - destruct (v =? 255) eqn:E.
    + apply Z.eqb_eq in E. subst v. right. split; [reflexivity|].
      exists [], r. split; reflexivity.
    + cbn [orb]. destruct IH as [[H1 H2] | [H1 (pre & tl & H2 & H3)]].
      * left. split; assumption.
      * right. split; [assumption|]. exists (v :: pre), tl. rewrite H3, H2.
        split; reflexivity.
Qed.

Lemma runs_up_to_last_free (l : list Z) :
  Forall (fun v => v = OBSTACLE \/ v = FREE) l -> has_free l = true ->
  obstacle_runs l
  = obstacle_runs (rev (after_first_free (rev l)))
    + (if decide (last l = Some 0) then 1 else 0).
Proof.
  induction l as [|v l IH] using rev_ind; intros Hbin Hfree; [discriminate|].
  apply Forall_app in Hbin as [Hl Hv]. inversion Hv as [|? ? Hv0 _]; subst.
  rewrite rev_app_distr. cbn [rev app]. rewrite last_snoc.
  destruct Hv0 as [-> | ->]; unfold OBSTACLE, FREE.
  - cbn [after_first_free]. change (0 =? 255) with false. cbv iota.
    assert (Hfree' : has_free l = true).
    { unfold has_free in *. rewrite existsb_app in Hfree. cbn in Hfree.
      rewrite !orb_false_r in Hfree. exact Hfree. }
    rewrite obstacle_runs_snoc_black, (IH Hl Hfree').
    destruct (decide (last l = Some 0)), (decide (Some 0 = Some 0));
      try congruence; lia.
  - cbn [after_first_free]. change (255 =? 255) with true. cbv iota.
    cbn [rev]. rewrite rev_involutive.
    destruct (decide (Some 255 = Some 0)); [congruence | lia].
Qed.

Lemma runs_after_first_free (r : list Z) :
  Forall (fun v => v = OBSTACLE \/ v = FREE) r -> has_free r = true ->
  obstacle_runs (after_first_free r)
  = runs_between_free r + (if decide (last r = Some 0) then 1 else 0).
Proof.
  intros Hbin Hfree. unfold runs_between_free, between_first_and_last_free.
  destruct (after_first_free_cases r) as [[H _] | [_ (pre & tl & Hr & Haff)]];
    [congruence|].
  rewrite Haff.
  assert (Htl : Forall (fun v => v = OBSTACLE \/ v = FREE) (255 :: tl)).
  { rewrite Hr in Hbin. apply Forall_app in Hbin as [_ H]. exact H. }
  rewrite (runs_up_to_last_free (255 :: tl) Htl eq_refl).
  replace (last r) with (last (255 :: tl)); [reflexivity|].
  rewrite Hr, last_app. destruct (last (255 :: tl)) eqn:E; [reflexivity|].
  apply last_None in E. discriminate.
Qed.

(** C5 (amended): in a rectangular grid of FREE and OBSTACLE cells, [y_start]
    is the smallest row that contains a FREE cell, and [n_start] is the number
    of maximal obstacle runs of that row that lie after its first FREE cell.
    A run after the last FREE cell of the row is counted like the others:
    [n_start] is the number of runs between the first and the last FREE
    cell, plus one when the row ends with an obstacle cell. *)
Theorem find_start_first_free_row (room_map : Mat) (y : nat) (r : list Z) :
  rectangular room_map -> binary room_map ->
  room_map !! y = Some r -> has_free r = true ->
  (forall y' r', (y' < y)%nat -> room_map !! y' = Some r' -> has_free r' = false) ->
  y_start (find_start room_map) = y /\
  n_start (find_start room_map) = obstacle_runs (after_first_free r) /\
  n_start (find_start room_map)
  = runs_between_free r + (if decide (last r = Some OBSTACLE) then 1 else 0).
Proof.
  intros Hrect Hbin Hy Hfree Hbefore. unfold find_start, rows.
  pose proof (lookup_lt_Some _ _ _ Hy) as Hlt.
  destruct (init_rows_first_free room_map y r Hrect Hbin Hy Hfree Hbefore
              (length room_map) 0%nat (mkInit 0 0 false false))
    as [H1 H2]; try (cbn; lia); try reflexivity.
  cbn [n_start] in H2. rewrite Z.add_0_l in H2.
  split; [exact H1|]. split; [exact H2|].
  rewrite H2. apply runs_after_first_free; [|exact Hfree].
  unfold binary in Hbin. rewrite Forall_forall in Hbin. apply Hbin.
  eapply list_elem_of_lookup_2. exact Hy.
Qed.

(** ** Painting only darkens *)

Lemma darkened_pixel_refl (a : Z) : darkened_pixel a a.
Proof. left. reflexivity. Qed.

Lemma darkened_pixel_trans (a b c : Z) :
  darkened_pixel a b -> darkened_pixel b c -> darkened_pixel a c.
Proof.
  unfold darkened_pixel, FREE, OBSTACLE.
  intros [-> | [-> ->]] [-> | [? ->]]; auto; lia.
Qed.

Lemma darkened_row_refl (r : list Z) : darkened_row r r.
Proof. induction r; constructor; auto using darkened_pixel_refl. Qed.

Lemma darkened_row_trans (a b c : list Z) :
  darkened_row a b -> darkened_row b c -> darkened_row a c.
Proof.
  unfold darkened_row. intros Hab. revert c.
  induction Hab; intros c Hbc; inversion Hbc; subst; constructor;
    eauto using darkened_pixel_trans.
Qed.

Lemma darkened_refl (m : Mat) : darkened m m.
Proof. induction m; constructor; auto using darkened_row_refl. Qed.

Lemma darkened_trans (a b c : Mat) :
  darkened a b -> darkened b c -> darkened a c.
Proof.
  unfold darkened. intros Hab. revert c.
  induction Hab; intros c Hbc; inversion Hbc; subst; constructor;
    eauto using darkened_row_trans.
Qed.

Lemma darkened_row_blacken (r : list Z) (c : nat) :
  r !! c = Some 255 -> darkened_row r (<[c := 0]> r).
Proof.
  intros Hc. rewrite <- (list_insert_id r c 255 Hc) at 1.
  apply Forall2_insert; [apply darkened_row_refl|].
  right. split; reflexivity.
Qed.

Lemma paint_left_darkens (c : nat) : forall r, darkened_row r (paint_left r c).
Proof.
  induction c as [|c IH]; intros r; cbn [paint_left]; [apply darkened_row_refl|].
  destruct (r !! S c) as [v|] eqn:Hv; [|apply darkened_row_refl].
  destruct (v =? 255) eqn:Hw.
  - apply Z.eqb_eq in Hw. subst v.
    eapply darkened_row_trans; [apply darkened_row_blacken; exact Hv | apply IH].
  - destruct (v =? 0); [apply darkened_row_refl | apply IH].
Qed.

Lemma paint_right_darkens (k : nat) :
  forall r c, darkened_row r (paint_right r c k).
Proof.
  induction k as [|k IH]; intros r c; cbn [paint_right]; [apply darkened_row_refl|].
  destruct (r !! c) as [v|] eqn:Hv; [|apply darkened_row_refl].
  destruct (v =? 255) eqn:Hw.
  - apply Z.eqb_eq in Hw. subst v.
    eapply darkened_row_trans; [apply darkened_row_blacken; exact Hv | apply IH].
  - destruct (v =? 0); [apply darkened_row_refl | apply IH].
Qed.

Lemma paint_darkens (width : nat) (cm : Mat) (y x : nat) :
  darkened cm (paint width cm y x).
Proof.
  unfold paint. destruct (cm !! y) as [r|] eqn:Hr; [|apply darkened_refl].
  rewrite <- (list_insert_id cm y r Hr) at 1.
  apply Forall2_insert; [apply darkened_refl|].
  unfold paint_row.
  eapply darkened_row_trans; [apply paint_left_darkens | apply paint_right_darkens].
Qed.

Lemma mark_pixel_darkens (room_map : Mat) (ys yc : nat) (s : mark_state) (x : nat) :
  darkened (cell_map s) (cell_map (mark_pixel room_map ys yc s x)).
Proof.
  unfold mark_pixel.
  repeat match goal with
         | |- context [if ?b then _ else _] => destruct b
         end; cbn [cell_map]; auto using darkened_refl, paint_darkens.
Qed.

Lemma mark_critical_points_darkens (room_map : Mat) (ys yc : nat)
    (cm : Mat) (pr : list (Z * Z)) :
  darkened cm (cell_map (mark_critical_points room_map ys yc cm pr)).
Proof.
  unfold mark_critical_points.
  change cm with (cell_map (mkMark false cm pr)) at 1.
  generalize (mkMark false cm pr). generalize (seq 0 (cols room_map)).
  intros xs. induction xs as [|x xs IH]; intros s; cbn [fold_left].
  - apply darkened_refl.
  - eapply darkened_trans; [apply mark_pixel_darkens | apply IH].
Qed.

Lemma sweep_row_darkens (room_map : Mat) (s : sweep_state) (y : nat) :
  darkened (marked s) (marked (sweep_row room_map s y)).
Proof.
  unfold sweep_row.
  repeat match goal with
         | |- context [if ?b then _ else _] => destruct b
         end; cbn [marked];
    auto using darkened_refl, mark_critical_points_darkens.
Qed.

Lemma decompose_darkens (room_map : Mat) : darkened room_map (decompose room_map).
Proof.
  unfold decompose, sweep.
  generalize (seq (S (y_start (find_start room_map)))
                  (rows room_map - S (y_start (find_start room_map)))).
  change room_map with
    (marked (mkSweep (n_start (find_start room_map)) room_map [])) at 1.
  generalize (mkSweep (n_start (find_start room_map)) room_map []).
  intros s ys. revert s. induction ys as [|y ys IH]; intros s; cbn [fold_left].
  - apply darkened_refl.
  - eapply darkened_trans; [apply sweep_row_darkens | apply IH].
Qed.

Lemma darkened_pixel_lookup (a b : Mat) (y x : nat) (v : Z) :
  darkened a b -> pixel a y x = Some v ->
  exists w, pixel b y x = Some w /\ darkened_pixel v w.
Proof.
  unfold pixel. intros Hab Hv.
  destruct (a !! y) as [r|] eqn:Hr; [|discriminate].
  destruct (Forall2_lookup_l _ _ _ _ _ Hab Hr) as (r' & Hr' & Hrr).
  destruct (Forall2_lookup_l _ _ _ _ _ Hrr Hv) as (w & Hw & Hvw).
  exists w. rewrite Hr'. split; assumption.
Qed.

(** C8: the map handed to the contour finder has the rows and columns of the
    input map, every obstacle pixel of the input is an obstacle pixel of it,
    and a pixel that differs was FREE in the input and is OBSTACLE now. *)
Theorem decompose_obstacles_superset (room_map : Mat) (y x : nat) (v : Z) :
  pixel room_map y x = Some v ->
  exists w, pixel (decompose room_map) y x = Some w /\
            (v = OBSTACLE -> w = OBSTACLE) /\
            (w = v \/ (v = FREE /\ w = OBSTACLE)).
Proof.
  intros Hv.
  destruct (darkened_pixel_lookup _ _ y x v (decompose_darkens room_map) Hv)
    as (w & Hw & Hd).
  exists w. split; [exact Hw|]. split; [|exact Hd].
  intros ->. destruct Hd as [-> | [Hf _]]; [reflexivity|].
  unfold FREE, OBSTACLE in Hf. discriminate.
Qed.

(** ** A map without a free pixel *)

Lemma init_fold_no_free (y : nat) (l : list Z) :
  Forall (fun v => v <> FREE) l ->
  forall s, found s = false -> fold_left (init_pixel y) l s = s.
Proof.
  induction 1 as [|v l Hv Hl IH]; intros s Hs; cbn [fold_left]; [reflexivity|].
  assert (Hstep : init_pixel y s v = s).
  { unfold init_pixel. rewrite Hs.
    destruct (v =? 255) eqn:E; [apply Z.eqb_eq in E; contradiction | reflexivity]. }
  rewrite Hstep. apply IH. exact Hs.
Qed.

Lemma count_fold_no_free (l : list Z) :
  Forall (fun v => v <> FREE) l ->
  forall s, hit_white_pixel s = false -> fold_left count_pixel l s = s.
Proof.
  induction 1 as [|v l Hv Hl IH]; intros s Hs; cbn [fold_left]; [reflexivity|].
  assert (Hstep : count_pixel s v = s).
  { unfold count_pixel. rewrite Hs.
    destruct (v =? 255) eqn:E; [apply Z.eqb_eq in E; contradiction | reflexivity]. }
  rewrite Hstep. apply IH. exact Hs.
Qed.

Lemma no_free_lookup (m : Mat) (y : nat) (r : list Z) :
  no_free m -> m !! y = Some r -> Forall (fun v => v <> FREE) r.
Proof.
  unfold no_free. rewrite Forall_forall. intros Hm Hy. apply Hm.
  eapply list_elem_of_lookup_2. exact Hy.
Qed.

Lemma init_rows_no_free (m : Mat) :
  rectangular m -> no_free m ->
  forall k y s, (y + k <= length m)%nat -> found s = false ->
    init_rows m k y s = s.
Proof.
  intros Hrect Hno. induction k as [|k IH]; intros y s Hlen Hs; [reflexivity|].
  cbn [init_rows].
  destruct (lookup_lt_is_Some_2 m y ltac:(lia)) as [r Hr].
  rewrite (row_pixels_lookup m y r Hrect Hr).
  rewrite (init_fold_no_free y r (no_free_lookup m y r Hno Hr) s Hs), Hs.
  apply IH; [lia | exact Hs].
Qed.

Lemma count_segments_no_free (m : Mat) (y : nat) :
  rectangular m -> no_free m -> (y < length m)%nat -> count_segments m y = 0.
Proof.
  intros Hrect Hno Hy. unfold count_segments.
  destruct (lookup_lt_is_Some_2 m y Hy) as [r Hr].
  rewrite (row_pixels_lookup m y r Hrect Hr).
  rewrite count_fold_no_free; [reflexivity | | reflexivity].
  eapply no_free_lookup; eassumption.
Qed.

Lemma sweep_no_free (room_map : Mat) :
  rectangular room_map -> no_free room_map ->
  sweep room_map = mkSweep 0 room_map [].
Proof.
  intros Hrect Hno. unfold sweep, find_start, rows.
  rewrite (init_rows_no_free room_map Hrect Hno) by (cbn; (lia || reflexivity)).
  cbn [y_start n_start].
  assert (Hys : Forall (fun y => (y < length room_map)%nat)
                       (seq 1 (length room_map - 1))).
  { apply Forall_forall. intros y Hy. apply list_elem_of_In, in_seq in Hy. lia. }
  induction Hys as [|y ys Hy Hys IH]; cbn [fold_left]; [reflexivity|].
  replace (sweep_row room_map (mkSweep 0 room_map []) y)
    with (mkSweep 0 room_map []); [exact IH|].
  unfold sweep_row. rewrite (count_segments_no_free room_map y Hrect Hno Hy).
  reflexivity.
Qed.

Lemma binary_no_free_black (m : Mat) :
  binary m -> no_free m -> Forall (Forall (fun v => v = OBSTACLE)) m.
Proof.
  unfold binary, no_free. intros Hb Hn.
  induction Hb as [|r m Hr Hm IH]; inversion Hn; subst; constructor; auto.
  clear - Hr H1. induction Hr as [|v r Hv Hr IH]; inversion H1; subst;
    constructor; auto. destruct Hv; [assumption | contradiction].
Qed.

(** C4: for a grid of FREE and OBSTACLE cells without a FREE cell, the sweep
    leaves its copy of the map as the input is, no cell is found, and the
    pose list handed in empty is returned empty.  The contour finder finds
    nothing in a map of zeros, and [mapPath] adds nothing for an empty
    field-of-view path. *)
Theorem no_free_cell_empty_path (room_map : Mat) :
  (forall m, Forall (Forall (fun v => v = OBSTACLE)) m -> findContours m = []) ->
  (forall m path v res origin start, mapPath m path [] v res origin start = path) ->
  rectangular room_map -> binary room_map -> no_free room_map ->
  decompose room_map = room_map /\
  cell_polygons room_map = [] /\
  forall fuel map_resolution starting_position map_origin fitting_circle_radius
         path_eps plan_for_footprint robot_to_fow_vector,
    getExplorationPath fuel room_map [] map_resolution starting_position
      map_origin fitting_circle_radius path_eps plan_for_footprint
      robot_to_fow_vector = Some [].
Proof.
  intros Hcontours HmapPath Hrect Hbin Hno.
  assert (Hdec : decompose room_map = room_map).
  { unfold decompose. rewrite (sweep_no_free room_map Hrect Hno). reflexivity. }
  assert (Hcells : cell_polygons room_map = []).
  { unfold cell_polygons. rewrite Hdec. apply Hcontours.
    apply binary_no_free_black; assumption. }
  repeat split; [exact Hdec | exact Hcells |].
  intros. unfold getExplorationPath, fow_path. rewrite Hcells. cbn.
  destruct plan_for_footprint; [reflexivity|].
  rewrite HmapPath. reflexivity.
Qed.

(** ** The start cell *)

Lemma min_index_fold (p : Point) (cells : list Polygon) :
  forall mi i0,
    let r := fst (fold_left
                    (fun (s : Z * Z) cell =>
                       (if contains cell p then snd s else fst s, snd s + 1))
                    cells (mi, i0)) in
    (exists (j : nat) c, cells !! j = Some c /\ contains c p = true /\
                         r = i0 + Z.of_nat j) \/
    (r = mi /\ forall c, c ∈ cells -> contains c p = false).
Proof.
  induction cells as [|c cells IH]; intros mi i0; cbn [fold_left fst snd].
  - right. split; [reflexivity|]. intros c Hc. inversion Hc.
  - destruct (IH (if contains c p then i0 else mi) (i0 + 1))
      as [(j & c' & Hj & Hc' & Hr) | [Hr Hnone]].
    + left. exists (S j), c'. cbn zeta in Hr. repeat split; [exact Hj | exact Hc' |].
      rewrite Hr. lia.
    + cbn zeta in Hr. destruct (contains c p) eqn:Hc.
      * left. exists 0%nat, c. repeat split; [exact Hc | rewrite Hr; lia].
      * right. split; [exact Hr|]. intros c' Hin.
        apply elem_of_cons in Hin as [-> | Hin]; [exact Hc | apply Hnone, Hin].
Qed.

Lemma min_index_spec (cells : list Polygon) (p : Point) :
  (exists (j : nat) c, cells !! j = Some c /\ contains c p = true /\
                       min_index cells p = Z.of_nat j) \/
  (min_index cells p = 0 /\ forall c, c ∈ cells -> contains c p = false).
Proof.
  unfold min_index.
  destruct (min_index_fold p cells 0 0) as [(j & c & Hj & Hc & Hr) | H].
  - left. exists j, c. cbn zeta in Hr. rewrite Hr. repeat split; assumption.
  - right. exact H.
Qed.

(** C3: when the tour of the TSP solver starts at the node it is given as
    start, the first cell of the visiting order contains the starting
    position (inside or on the boundary) whenever some cell does; when no
    cell does, the start node is index 0 and the order starts with cell 0. *)
Theorem visit_order_starts_in_start_cell
    (room_map : Mat) (map_resolution : Q) (starting_point : Point) :
  (forall m nodes res start, 0 <= start < Z.of_nat (length nodes) ->
     head (solveConcordeTSP m nodes res start) = Some start) ->
  ((exists c, c ∈ cell_polygons room_map /\ contains c starting_point = true) ->
   exists (i : nat) cell,
     head (optimal_order room_map map_resolution starting_point) = Some (Z.of_nat i) /\
     cell_polygons room_map !! i = Some cell /\
     contains cell starting_point = true) /\
  ((forall c, c ∈ cell_polygons room_map -> contains c starting_point = false) ->
   min_index (cell_polygons room_map) starting_point = 0 /\
   (cell_polygons room_map <> [] ->
    head (optimal_order room_map map_resolution starting_point) = Some 0)).
Proof.
  intros Htsp. unfold optimal_order, polygon_centers.
  destruct (min_index_spec (cell_polygons room_map) starting_point)
    as [(j & c & Hj & Hc & Hmin) | [Hmin Hnone]]; split.
  - intros _. exists j, c. rewrite Hmin.
    rewrite Htsp by (rewrite length_map; apply lookup_lt_Some in Hj; lia).
    repeat split; assumption.
  - intros Hall. rewrite (Hall c) in Hc; [discriminate|].
    eapply list_elem_of_lookup_2. exact Hj.
  - intros (c & Hin & Hc). rewrite (Hnone c Hin) in Hc. discriminate.
  - intros _. split; [exact Hmin|]. intros Hne. rewrite Hmin.
    apply Htsp. rewrite length_map.
    destruct (cell_polygons room_map); [contradiction | cbn; lia].
Qed.

(** ** The entry corner of a cell *)

Lemma Qltb_lt (a b : Q) : Qltb a b = true <-> (a < b)%Q.
Proof.
  unfold Qltb. rewrite negb_true_iff. split.
  - intros H. apply Qnot_le_lt. intros Hle.
    apply Qle_bool_iff in Hle. congruence.
  - intros H. destruct (Qle_bool b a) eqn:E; [|reflexivity].
    apply Qle_bool_iff in E. exfalso. exact (Qlt_not_le _ _ H E).
Qed.

Lemma Qltb_ge (a b : Q) : (b < a)%Q -> Qltb a b = false.
Proof.
  intros H. destruct (Qltb a b) eqn:E; [|reflexivity].
  apply Qltb_lt in E. exfalso. exact (Qlt_irrefl _ (Qlt_trans _ _ _ H E)).
Qed.

Lemma select_entry_nearest (d : bool -> bool -> Q) (up lf : bool) :
  (forall up' lf', (up', lf') <> (up, lf) -> (d up lf < d up' lf')%Q) ->
  select_entry (d true true) (d true false) (d false true) (d false false)
  = (up, lf).
Proof.
  intros Hmin. unfold select_entry.
  destruct up, lf.
  - rewrite (Qltb_ge (d false true) (d true true)) by (apply Hmin; congruence).
    rewrite (Qltb_ge (d false false) (d true true)) by (apply Hmin; congruence).
    rewrite (Qltb_ge (d true false) (d true true)) by (apply Hmin; congruence).
    reflexivity.
  - rewrite (Qltb_ge (d false true) (d true false)) by (apply Hmin; congruence).
    rewrite (Qltb_ge (d false false) (d true false)) by (apply Hmin; congruence).
    rewrite !andb_false_r.
    rewrite (proj2 (Qltb_lt (d true false) (d true true)))
      by (apply Hmin; congruence).
    reflexivity.
  - rewrite (proj2 (Qltb_lt (d false true) (d true true)))
      by (apply Hmin; congruence).
    rewrite (proj2 (Qltb_lt (d false true) (d true false)))
      by (apply Hmin; congruence).
    rewrite (Qltb_ge (d false false) (d false true)) by (apply Hmin; congruence).
    reflexivity.
  - rewrite (proj2 (Qltb_lt (d false false) (d true true)))
      by (apply Hmin; congruence).
    rewrite (proj2 (Qltb_lt (d false false) (d true false)))
      by (apply Hmin; congruence).
    rewrite (proj2 (Qltb_lt (d false false) (d false true)))
      by (apply Hmin; congruence).
    rewrite orb_true_r. reflexivity.
Qed.

Lemma rev_last {A} (l : list A) (x : A) :
  last l = Some x -> exists l', rev l = x :: l'.
Proof.
  intros H. apply last_Some in H as [l' ->].
  exists (rev l'). rewrite rev_app_distr. reflexivity.
Qed.

(** C7: when one of the four corners L[0].left, L[0].right, L[k-1].left,
    L[k-1].right is strictly nearer to the robot position than the three
    others, by the length of the planner's path, the cell is entered at that
    corner: the lines are taken from the upper one down exactly when the
    corner is on L[0], and the first line is traced from left to right
    exactly when the corner is a left edge. *)
Theorem stitcher_starts_at_nearest_corner
    (fuel : nat) (room_map : Mat) (map_resolution : Q) (path_eps : Z)
    (pos : Point) (path : list Point)
    (lines : list boustrophedonHorizontalLine)
    (first lowest : boustrophedonHorizontalLine) (upper lf : bool) :
  head lines = Some first -> last lines = Some lowest ->
  (forall upper' lf', (upper', lf') <> (upper, lf) ->
     (planPath_length room_map pos
        (entry_corner lf (if upper then first else lowest)) map_resolution
      < planPath_length room_map pos
          (entry_corner lf' (if upper' then first else lowest)) map_resolution)%Q) ->
  entry_of room_map map_resolution pos first lowest = (upper, lf) /\
  stitch_cell fuel room_map map_resolution path_eps pos path lines
  = trace_lines fuel room_map map_resolution path_eps
      (mkStitch (entry_corner lf (if upper then first else lowest)) lf path)
      (line_order upper lines).
Proof.
  intros Hfirst Hlast Hmin.
  assert (Hentry : entry_of room_map map_resolution pos first lowest = (upper, lf)).
  { unfold entry_of.
    apply (select_entry_nearest
             (fun u l => planPath_length room_map pos
                           (entry_corner l (if u then first else lowest))
                           map_resolution)).
    exact Hmin. }
  split; [exact Hentry|].
  unfold stitch_cell. destruct lines as [|l0 rest]; [discriminate|].
  injection Hfirst as ->. rewrite Hlast, Hentry.
  destruct upper; cbn [line_order]; [reflexivity|].
  destruct (rev_last _ _ Hlast) as [l' Hrev]. rewrite Hrev. reflexivity.
Qed.

(** ** The lines of a cell *)

Lemma first_row_middle (min_y max_y R : Z) :
  0 <= min_y <= max_y -> max_y - min_y <= 2 * R ->
  first_row min_y max_y R = min_y + (max_y - min_y) / 2.
Proof.
  intros Hy Hd. unfold first_row.
  rewrite (proj2 (Z.leb_le _ _) Hd).
  rewrite Z.quot_div_nonneg by lia.
  replace (2 * min_y + (max_y - min_y)) with (min_y * 2 + (max_y - min_y)) by lia.
  rewrite Z.div_add_l by lia. reflexivity.
Qed.

Lemma line_loop_candidate_rows (room_map : Mat) (width R min_x max_x max_y : Z)
    (fuel : nat) :
  forall y,
    line_loop fuel room_map width R min_x max_x max_y y
    = map (horizontal_line room_map width R min_x max_x)
        <$> candidate_rows fuel R max_y y.
Proof.
  induction fuel as [|fuel IH]; intros y; cbn [line_loop candidate_rows];
    [reflexivity|].
  destruct (y + R <=? max_y); [|reflexivity].
  rewrite IH. destruct (candidate_rows fuel R max_y (y + R)); reflexivity.
Qed.

Lemma candidate_rows_mono (R max_y : Z) (fuel : nat) :
  forall y ys fuel', candidate_rows fuel R max_y y = Some ys ->
    (fuel <= fuel')%nat -> candidate_rows fuel' R max_y y = Some ys.
Proof.
  induction fuel as [|fuel IH]; intros y ys fuel' H Hle; [discriminate|].
  destruct fuel' as [|fuel']; [lia|]. cbn [candidate_rows] in *.
  destruct (y + R <=? max_y); [|exact H].
  destruct (candidate_rows fuel R max_y (y + R)) as [tl|] eqn:E; [|discriminate].
  rewrite (IH _ _ fuel' E) by lia. exact H.
Qed.

Lemma scan_rightwards_none (room_map : Mat) (width y : Z) (k : nat) :
  forall dx,
    (forall x, dx <= x -> x = dx \/ x < width -> at_ room_map y x <> FREE) ->
    scan_rightwards room_map width k y dx = None.
Proof.
  induction k as [|k IH]; intros dx Hno; cbn [scan_rightwards]; [reflexivity|].
  destruct (at_ room_map y dx =? 255) eqn:E.
  - apply Z.eqb_eq in E. exfalso. apply (Hno dx); [lia | left; reflexivity | exact E].
  - destruct (dx + 1 <? width) eqn:Hw; [|reflexivity].
    apply Z.ltb_lt in Hw. apply IH. intros x Hx Hx'. apply Hno; [lia|].
    right. destruct Hx'; lia.
Qed.

Lemma scan_leftwards_none (room_map : Mat) (y : Z) (k : nat) :
  forall dx,
    (forall x, x <= dx -> x = dx \/ 0 < x -> at_ room_map y x <> FREE) ->
    scan_leftwards room_map k y dx = None.
Proof.
  induction k as [|k IH]; intros dx Hno; cbn [scan_leftwards]; [reflexivity|].
  destruct (at_ room_map y dx =? 255) eqn:E.
  - apply Z.eqb_eq in E. exfalso. apply (Hno dx); [lia | left; reflexivity | exact E].
  - destruct (0 <? dx - 1) eqn:Hw; [|reflexivity].
    apply Z.ltb_lt in Hw. apply IH. intros x Hx Hx'. apply Hno; [lia|].
    right. destruct Hx'; lia.
Qed.

(** C1 (amended): for a cell with 0 <= min_y <= max_y whose height
    max_y - min_y is at most 2R, R >= 1, the first line is placed in the row
    min_y + (max_y - min_y)/2, and the rows R further down follow while they
    are not below max_y: this one line is the only one when the height is
    below 2R - 1, and a second line in the row R further down follows when
    the height is 2R - 1 or 2R. *)
Theorem small_cell_lines (fuel : nat) (room_map : Mat)
    (width min_x max_x min_y max_y R : Z) :
  0 <= min_y <= max_y -> 1 <= R -> max_y - min_y <= 2 * R -> (2 <= fuel)%nat ->
  path_lines fuel room_map width (min_x, max_x, min_y, max_y) R
  = Some (map (horizontal_line room_map width R min_x max_x)
            (if max_y - min_y <? 2 * R - 1
             then [min_y + (max_y - min_y) / 2]
             else [min_y + (max_y - min_y) / 2;
                   min_y + (max_y - min_y) / 2 + R])).
Proof.
  intros Hy HR Hd Hfuel. unfold path_lines.
  rewrite line_loop_candidate_rows, first_row_middle by assumption.
  destruct fuel as [|[|fuel]]; [lia | lia |].
  cbn [candidate_rows].
  pose proof (Z.div_mod (max_y - min_y) 2 ltac:(lia)) as Hdiv.
  pose proof (Z.mod_pos_bound (max_y - min_y) 2 ltac:(lia)) as Hmod.
  destruct (max_y - min_y <? 2 * R - 1) eqn:Hsmall.
  - apply Z.ltb_lt in Hsmall.
    replace (min_y + (max_y - min_y) / 2 + R <=? max_y) with false; [reflexivity|].
    symmetry. apply Z.leb_gt. lia.
  - apply Z.ltb_ge in Hsmall.
    replace (min_y + (max_y - min_y) / 2 + R <=? max_y) with true
      by (symmetry; apply Z.leb_le; lia).
    replace (min_y + (max_y - min_y) / 2 + R + R <=? max_y) with false
      by (symmetry; apply Z.leb_gt; lia).
    reflexivity.
Qed.

(** C2 (amended): every candidate row of a cell contributes one line to the
    list, whether its edges are found or not; an edge whose scan meets no
    FREE cell (rightwards from min_x for the left edge, leftwards from max_x
    down to column 1 for the right edge) is left at the default point (0,0). *)
Theorem every_candidate_row_gets_a_line (fuel : nat) (room_map : Mat)
    (width min_x max_x min_y max_y R : Z) :
  path_lines fuel room_map width (min_x, max_x, min_y, max_y) R
  = map (horizontal_line room_map width R min_x max_x)
      <$> candidate_rows fuel R max_y (first_row min_y max_y R) /\
  forall y,
    ((forall x, min_x <= x -> x = min_x \/ x < width -> at_ room_map y x <> FREE) ->
     left_edge_ (horizontal_line room_map width R min_x max_x y) = default_point) /\
    ((forall x, x <= max_x -> x = max_x \/ 0 < x -> at_ room_map y x <> FREE) ->
     right_edge_ (horizontal_line room_map width R min_x max_x y) = default_point).
Proof.
  split; [apply line_loop_candidate_rows|].
  intros y. unfold horizontal_line, find_left_edge, find_right_edge.
  cbn [left_edge_ right_edge_]. split; intros Hno.
  - rewrite scan_rightwards_none by exact Hno. reflexivity.
  - rewrite scan_leftwards_none by exact Hno. reflexivity.
Qed.

(** The line loop ends when R is positive, and the number of its lines. *)
Lemma candidate_rows_count (R max_y : Z) :
  1 <= R -> forall fuel y, y <= max_y -> (max_y - y) / R < Z.of_nat fuel ->
  exists ys, candidate_rows fuel R max_y y = Some ys /\
             Z.of_nat (length ys) = (max_y - y) / R + 1.
Proof.
  intros HR. induction fuel as [|fuel IH]; intros y Hy Hfuel.
  - pose proof (Z.div_pos (max_y - y) R ltac:(lia) ltac:(lia)). lia.
  - cbn [candidate_rows]. destruct (y + R <=? max_y) eqn:E.
    + apply Z.leb_le in E.
      assert (Hq : (max_y - (y + R)) / R = (max_y - y) / R - 1).
      { replace (max_y - (y + R)) with (max_y - y + (-1) * R) by lia.
        rewrite Z.div_add by lia. lia. }
      destruct (IH (y + R) E ltac:(lia)) as (ys & Hys & Hlen).
      exists (y :: ys). rewrite Hys. split; [reflexivity|].
      cbn [length]. lia.
    + apply Z.leb_gt in E. exists [y]. split; [reflexivity|].
      rewrite Z.div_small by lia. reflexivity.
Qed.

Lemma tall_cell_line_count (fuel : nat) (room_map : Mat)
    (width min_x max_x min_y max_y R : Z) :
  1 <= R -> 2 * R < max_y - min_y -> (max_y - min_y) / R < Z.of_nat fuel ->
  exists lines,
    path_lines fuel room_map width (min_x, max_x, min_y, max_y) R = Some lines /\
    Z.of_nat (length lines) = (max_y - min_y + 1) / R.
Proof.
  intros HR Htall Hfuel. unfold path_lines, first_row.
  rewrite line_loop_candidate_rows.
  replace (max_y - min_y <=? 2 * R) with false by (symmetry; apply Z.leb_gt; lia).
  assert (Hq : (max_y - (min_y - 1 + R)) / R = (max_y - min_y + 1) / R - 1).
  { replace (max_y - (min_y - 1 + R)) with (max_y - min_y + 1 + (-1) * R) by lia.
    rewrite Z.div_add by lia. lia. }
  assert (Hle : (max_y - min_y + 1) / R - 1 <= (max_y - min_y) / R).
  { pose proof (Z.div_le_mono (max_y - min_y + 1) (max_y - min_y + R) R
                  ltac:(lia) ltac:(lia)) as H.
    replace (max_y - min_y + R) with (max_y - min_y + 1 * R) in H by lia.
    rewrite Z.div_add in H by lia. lia. }
  destruct (candidate_rows_count R max_y HR fuel (min_y - 1 + R)
              ltac:(lia) ltac:(lia)) as (ys & Hys & Hlen).
  exists (map (horizontal_line room_map width R min_x max_x) ys).
  rewrite Hys. split; [reflexivity|]. rewrite length_map. lia.
Qed.

(** ** The passes over the lines *)

Lemma stride_below (path_eps span k : Z) :
  1 <= path_eps -> (k * path_eps < span <-> k <= (span - 1) / path_eps).
Proof.
  intros He. split; intros H.
  - apply Z.div_le_lower_bound; lia.
  - pose proof (Z.mul_div_le (span - 1) path_eps ltac:(lia)). nia.
Qed.

Lemma walk_right_strides (l r : Point) (path_eps : Z) :
  1 <= path_eps ->
  forall fuel k,
    Z.max 0 ((pt_x r - pt_x l - 1) / path_eps - k + 1) < Z.of_nat fuel ->
    walk_right fuel l r path_eps (k * path_eps)
    = Some (map (fun j => mkPoint (pt_x l + j * path_eps) (pt_y l))
              (seqZ k ((pt_x r - pt_x l - 1) / path_eps - k + 1))).
Proof.
  intros He. induction fuel as [|fuel IH]; intros k Hfuel; [lia|].
  cbn [walk_right].
  destruct (pt_x l + k * path_eps <? pt_x r) eqn:E.
  - apply Z.ltb_lt in E.
    assert (Hk : k <= (pt_x r - pt_x l - 1) / path_eps)
      by (apply stride_below; lia).
    replace (k * path_eps + path_eps) with ((k + 1) * path_eps) by lia.
    rewrite IH by lia.
    rewrite (seqZ_cons k) by lia. cbn [map fmap option_fmap option_map].
    repeat f_equal; lia.
  - apply Z.ltb_ge in E.
    assert (Hk : ~ k <= (pt_x r - pt_x l - 1) / path_eps)
      by (rewrite <- stride_below by lia; lia).
    rewrite seqZ_nil by lia. reflexivity.
Qed.

Lemma walk_left_strides (l r : Point) (path_eps : Z) :
  1 <= path_eps ->
  forall fuel k,
    Z.max 0 ((pt_x r - pt_x l - 1) / path_eps - k + 1) < Z.of_nat fuel ->
    walk_left fuel l r path_eps (- (k * path_eps))
    = Some (map (fun j => mkPoint (pt_x r - j * path_eps) (pt_y r))
              (seqZ k ((pt_x r - pt_x l - 1) / path_eps - k + 1))).
Proof.
  intros He. induction fuel as [|fuel IH]; intros k Hfuel; [lia|].
  cbn [walk_left].
  destruct (pt_x l <? pt_x r + - (k * path_eps)) eqn:E.
  - apply Z.ltb_lt in E.
    assert (Hk : k <= (pt_x r - pt_x l - 1) / path_eps)
      by (apply stride_below; lia).
    replace (- (k * path_eps) - path_eps) with (- ((k + 1) * path_eps)) by lia.
    rewrite IH by lia.
    rewrite (seqZ_cons k) by lia. cbn [map fmap option_fmap option_map].
    repeat f_equal; lia.
  - apply Z.ltb_ge in E.
    assert (Hk : ~ k <= (pt_x r - pt_x l - 1) / path_eps)
      by (rewrite <- stride_below by lia; lia).
    rewrite seqZ_nil by lia. reflexivity.
Qed.

Lemma follow_extends (path_eps : Z) (route : list Point) :
  forall pos path, exists via,
    snd (fold_left (follow path_eps) route (pos, path)) = path ++ via.
Proof.
  induction route as [|p route IH]; intros pos path; cbn [fold_left].
  - exists []. cbn. rewrite app_nil_r. reflexivity.
  - unfold follow at 2. cbn [fst snd].
    destruct (norm_ge pos p path_eps).
    + destruct (IH p (path ++ [p])) as [via Hvia].
      exists (p :: via). rewrite Hvia, <- app_assoc. reflexivity.
    + apply IH.
Qed.

Lemma strides_fit (path_eps span : Z) (fuel : nat) :
  1 <= path_eps -> Z.max 1 span < Z.of_nat fuel ->
  Z.max 0 ((span - 1) / path_eps - 1 + 1) < Z.of_nat fuel.
Proof.
  intros He Hf.
  destruct (Z.le_gt_cases 1 span) as [Hs | Hs].
  - pose proof (Z.div_le_upper_bound (span - 1) path_eps (span - 1)
                  ltac:(lia) ltac:(nia)). lia.
  - pose proof (Z.div_lt_upper_bound (span - 1) path_eps 0 ltac:(lia) ltac:(lia)).
    lia.
Qed.

Lemma trace_line_pass (fuel : nat) (room_map : Mat) (map_resolution : Q)
    (path_eps : Z) (s : stitch_state) (line : boustrophedonHorizontalLine) :
  1 <= path_eps -> line_fits fuel line ->
  exists via,
    trace_line fuel room_map map_resolution path_eps s line
    = Some (mkStitch (entry_corner (negb (left s)) line) (negb (left s))
              (fow_middlepoint_path s ++ via ++ pass path_eps (left s) line)).
Proof.
  intros He Hfit. unfold line_fits in Hfit. unfold trace_line, pass, strides.
  pose proof (strides_fit path_eps _ fuel He Hfit) as Hfuel.
  destruct (left s); cbn [negb entry_corner].
  - destruct (follow_extends path_eps
                (planPath_points room_map (robot_pos s) (left_edge_ line)
                   map_resolution)
                (robot_pos s) (fow_middlepoint_path s)) as [via Hvia].
    exists via. rewrite Hvia.
    replace path_eps with (1 * path_eps) at 2 by lia.
    rewrite walk_right_strides by assumption. cbn [mbind option_bind].
    rewrite map_map.
    replace ((pt_x (right_edge_ line) - pt_x (left_edge_ line) - 1) / path_eps - 1 + 1)
      with ((pt_x (right_edge_ line) - pt_x (left_edge_ line) - 1) / path_eps) by lia.
    rewrite <- !app_assoc. reflexivity.
  - destruct (follow_extends path_eps
                (planPath_points room_map (robot_pos s) (right_edge_ line)
                   map_resolution)
                (robot_pos s) (fow_middlepoint_path s)) as [via Hvia].
    exists via. rewrite Hvia.
    replace (- path_eps) with (- (1 * path_eps)) by lia.
    rewrite walk_left_strides by assumption. cbn [mbind option_bind].
    rewrite map_map.
    replace ((pt_x (right_edge_ line) - pt_x (left_edge_ line) - 1) / path_eps - 1 + 1)
      with ((pt_x (right_edge_ line) - pt_x (left_edge_ line) - 1) / path_eps) by lia.
    rewrite <- !app_assoc. reflexivity.
Qed.

Lemma trace_lines_serpentine (fuel : nat) (room_map : Mat) (map_resolution : Q)
    (path_eps : Z) (lines : list boustrophedonHorizontalLine) :
  1 <= path_eps -> Forall (line_fits fuel) lines ->
  forall s, exists s' pts,
    trace_lines fuel room_map map_resolution path_eps s lines = Some s' /\
    fow_middlepoint_path s' = fow_middlepoint_path s ++ pts /\
    serpentine path_eps (left s) lines pts.
Proof.
  intros He Hfit. induction Hfit as [|line rest Hline Hrest IH]; intros s.
  - exists s, []. cbn. rewrite app_nil_r. repeat split. constructor.
  - destruct (trace_line_pass fuel room_map map_resolution path_eps s line
                He Hline) as [via Hstep].
    cbn [trace_lines]. rewrite Hstep. cbn [mbind option_bind].
    match goal with
    | |- context [trace_lines _ _ _ _ ?s1 rest] =>
        destruct (IH s1) as (s' & pts & Hrun & Hpath & Hserp)
    end.
    cbn [left fow_middlepoint_path] in Hpath, Hserp.
    exists s', (via ++ pass path_eps (left s) line ++ pts).
    split; [exact Hrun|]. split.
    + rewrite Hpath, <- !app_assoc. reflexivity.
    + constructor. exact Hserp.
Qed.

Lemma stitch_cell_serpentine (fuel : nat) (room_map : Mat) (map_resolution : Q)
    (path_eps : Z) (pos : Point) (path : list Point)
    (lines : list boustrophedonHorizontalLine)
    (first lowest : boustrophedonHorizontalLine) :
  1 <= path_eps -> Forall (line_fits fuel) lines ->
  head lines = Some first -> last lines = Some lowest ->
  exists s pts,
    stitch_cell fuel room_map map_resolution path_eps pos path lines = Some s /\
    fow_middlepoint_path s = path ++ pts /\
    serpentine path_eps
      (snd (entry_of room_map map_resolution pos first lowest))
      (line_order (fst (entry_of room_map map_resolution pos first lowest)) lines)
      pts.
Proof.
  intros He Hfit Hfirst Hlast. unfold stitch_cell.
  destruct lines as [|l0 rest]; [discriminate|]. injection Hfirst as ->.
  rewrite Hlast.
  destruct (entry_of room_map map_resolution pos first lowest) as [upper lf].
  cbn [fst snd].
  assert (Hord : Forall (line_fits fuel) (line_order upper (first :: rest))).
  { destruct upper; cbn [line_order]; [exact Hfit|].
    apply Forall_forall. intros l Hl. rewrite Forall_forall in Hfit.
    apply Hfit. apply list_elem_of_In. apply list_elem_of_In, in_rev in Hl. exact Hl. }
  assert (Hne : exists entry tl, line_order upper (first :: rest) = entry :: tl).
  { destruct upper; cbn [line_order]; [eauto|].
    destruct (rev_last _ _ Hlast) as [l' Hrev]. eauto. }
  destruct Hne as (entry & tl & Heq). rewrite Heq in *.
  destruct (trace_lines_serpentine fuel room_map map_resolution path_eps
              (entry :: tl) He Hord
              (mkStitch (entry_corner lf entry) lf path))
    as (s & pts & Hrun & Hpath & Hserp).
  exists s, pts. repeat split; assumption.
Qed.

(** The number of lines of a cell higher than 2R is decided by the box that
    the contour finder and [getMinMaxCoordinates] give for it, whatever the
    room: with R = 5 the planner makes 19 lines exactly when the box spans 95
    to 99 rows. *)
Lemma nineteen_lines_iff_box_height (fuel : nat) (room_map : Mat)
    (width min_x max_x min_y max_y : Z) :
  2 * 5 < max_y - min_y -> (max_y - min_y) / 5 < Z.of_nat fuel ->
  exists lines,
    path_lines fuel room_map width (min_x, max_x, min_y, max_y) 5 = Some lines /\
    (length lines = 19%nat <-> 95 <= max_y - min_y + 1 <= 99).
Proof.
  intros Htall Hfuel.
  destruct (tall_cell_line_count fuel room_map width min_x max_x min_y max_y 5
              ltac:(lia) Htall Hfuel) as (lines & Hlines & Hlen).
  exists lines. split; [exact Hlines|].
  pose proof (Z.div_mod (max_y - min_y + 1) 5 ltac:(lia)) as Hdiv.
  pose proof (Z.mod_pos_bound (max_y - min_y + 1) 5 ltac:(lia)) as Hmod.
  lia.
Qed.

(** The free 100x100 rectangle with R = 5 and path_eps = 2, when the box of
    its cell spans the whole grid (rows and columns 0..99): the planner makes
    20 lines, from x = 5 to x = 94 in the rows 4, 9, ..., 99, and the path
    through the cell is a serpentine over them: the lines are taken in order
    from the entry line, each traced in the direction opposite to the one
    before. *)
Theorem square100_twenty_lines (fuel : nat) (width : Z) (map_resolution : Q)
    (pos : Point) (path : list Point) :
  (90 <= fuel)%nat ->
  path_lines fuel square100 width (whole_grid_box square100) 5
  = Some square100_lines /\
  length square100_lines = 20%nat /\
  exists s pts,
    stitch_cell fuel square100 map_resolution 2 pos path square100_lines = Some s /\
    fow_middlepoint_path s = path ++ pts /\
    serpentine 2
      (snd (entry_of square100 map_resolution pos
              (mkLine (mkPoint 5 4) (mkPoint 94 4))
              (mkLine (mkPoint 5 99) (mkPoint 94 99))))
      (line_order
         (fst (entry_of square100 map_resolution pos
                 (mkLine (mkPoint 5 4) (mkPoint 94 4))
                 (mkLine (mkPoint 5 99) (mkPoint 94 99))))
         square100_lines)
      pts.
Proof.
  intros Hfuel. split; [|split; [reflexivity|]].
  - change (whole_grid_box square100) with (0, 99, 0, 99).
    unfold path_lines. rewrite line_loop_candidate_rows.
    rewrite (candidate_rows_mono 5 99 20 (first_row 0 99 5)
               (map (fun k => 4 + 5 * k) (seqZ 0 20)) fuel)
      by (reflexivity || lia).
    cbn [fmap option_fmap option_map]. apply f_equal.
    vm_compute. reflexivity.
  - apply stitch_cell_serpentine; try reflexivity; [lia|].
    unfold square100_lines. apply Forall_forall. intros l Hl.
    apply list_elem_of_In, in_map_iff in Hl as (k & <- & _).
    unfold line_fits. cbn [left_edge_ right_edge_ pt_x]. lia.
Qed.

(** ** The returned path *)

(** C9 (amended): when [plan_for_footprint] is true, the poses handed in
    stay in front and one pose is added for every field-of-view pose, in
    their order: the field-of-view pose (x, y, theta) gives
    (x * resolution + origin.x, y * resolution + origin.y, theta), and the
    offset vector from the robot to the field of view does not enter the
    result.  The resolution is a [float], which cannot hold 0.05: with the
    float nearest to it, 13421773 / 2^28, and the origin (-2.5, -2.5) the
    pose (100, 80, theta) becomes (2.5 + 5/2^26, 1.5 + 1/2^24, theta), that
    is (2.500000074505806, 1.5000000596046448, theta), within 10^-7 of
    (2.5, 1.5); the doubles of the machine give exactly these values. *)
Theorem footprint_path_is_scaled_fow_path (fuel : nat) (room_map : Mat)
    (path : list Pose2D) (map_resolution : Q) (starting_position : Point)
    (map_origin : Q * Q) (fitting_circle_radius : Q) (path_eps : Z)
    (points : list Point) :
  fow_path fuel room_map map_resolution starting_position fitting_circle_radius
           path_eps = Some points ->
  (exists out,
     (forall robot_to_fow_vector,
        getExplorationPath fuel room_map path map_resolution starting_position
          map_origin fitting_circle_radius path_eps true robot_to_fow_vector
        = Some out) /\
     length out = (length path + length (fow_poses points))%nat /\
     (forall k pose, path !! k = Some pose -> out !! k = Some pose) /\
     (forall i x y theta,
        fow_poses points !! i = Some (mkPose x y theta) ->
        out !! (length path + i)%nat
        = Some (mkPose (x * map_resolution + fst map_origin)%Q
                       (y * map_resolution + snd map_origin)%Q
                       theta))) /\
  (forall theta,
     let world := to_world resolution_0_05f_value ((-2.5)%Q, (-2.5)%Q)
                    (mkPose 100 80 theta) in
     binary64_is resolution_0_05f resolution_0_05f_value /\
     binary64_is (world_coordinate 100 resolution_0_05f (-2.5)) (pose_x world) /\
     binary64_is (world_coordinate 80 resolution_0_05f (-2.5)) (pose_y world) /\
     (pose_x world == 2.5 + (5 # 67108864))%Q /\
     (pose_y world == 1.5 + (1 # 16777216))%Q /\
     pose_theta world = theta /\
     (Qabs (pose_x world - 2.5) < 1 # 10000000)%Q /\
     (Qabs (pose_y world - 1.5) < 1 # 10000000)%Q).
Proof.
  intros Hpts. split.
  - eexists. split.
    { intros v. unfold getExplorationPath. rewrite Hpts. reflexivity. }
    change (map (to_world map_resolution map_origin) (fow_poses points))
      with (to_world map_resolution map_origin <$> fow_poses points).
    split; [rewrite length_app, length_fmap; reflexivity|].
    split; [intros k pose Hk; apply lookup_app_l_Some; exact Hk|].
    intros i x y theta Hi. rewrite lookup_app_r by lia.
    replace (length path + i - length path)%nat with i by lia.
    rewrite list_lookup_fmap, Hi. reflexivity.
  - intros theta world.
    split; [vm_compute; reflexivity|].
    split; [vm_compute; reflexivity|].
    split; [vm_compute; reflexivity|].
    split; [vm_compute; reflexivity|].
    split; [vm_compute; reflexivity|].
    split; [reflexivity|].
    split; vm_compute; reflexivity.
Qed.

(** ** The reads of the stencil *)

(** C10 (the code reads past the last column): in the room [notch] of three
    columns the IN event of row 1 tests the obstacle pixel of column 2, and
    the stencil reads the columns 1, 2 and 3 of row 0; column 3 is outside
    the map. *)
Theorem stencil_reads_past_last_column :
  cols notch = 3%nat /\
  stencil_reads (sweep notch) = [(0, 1); (0, 2); (0, 3)] /\
  pixel notch 0 3 = None.
Proof.
  split; [reflexivity|]. split; [|reflexivity].
  vm_compute. destruct (stray 0 3); reflexivity.
Qed.

(** What the stencil does keep to: its row is a row of the map, and its
    columns lie between 0 and the number of columns, the latter included. *)
Lemma mark_pixels_reads (room_map : Mat) (ys yc : nat) (ok : Z * Z -> Prop) :
  (forall c, 0 <= c <= Z.of_nat (cols room_map) -> ok (Z.of_nat yc, c)) ->
  forall n a s, (a + n = cols room_map)%nat ->
    (hit s = true -> (1 <= a)%nat) -> Forall ok (probes s) ->
    Forall ok (probes (fold_left (mark_pixel room_map ys yc) (seq a n) s)).
Proof.
  intros Hok. induction n as [|n IH]; intros a s Han Hhit Hpr; [exact Hpr|].
  cbn [seq fold_left]. apply IH; [lia | |]; unfold mark_pixel.
  - destruct ((at_ room_map (Z.of_nat ys) (Z.of_nat a) =? 255) && negb (hit s));
      [intros _; lia|].
    destruct (hit s && (at_ room_map (Z.of_nat ys) (Z.of_nat a) =? 0));
      [destruct (critical_point room_map (Z.of_nat yc) (Z.of_nat a))|];
      cbn [hit]; intros H; specialize (Hhit H); lia.
  - destruct ((at_ room_map (Z.of_nat ys) (Z.of_nat a) =? 255) && negb (hit s));
      [exact Hpr|].
    destruct (hit s && (at_ room_map (Z.of_nat ys) (Z.of_nat a) =? 0)) eqn:E;
      [|exact Hpr].
    apply andb_true_iff in E as [E _]. specialize (Hhit E).
    assert (Hnew : Forall ok (probes s
                   ++ map (fun c => (Z.of_nat yc, c)) (stencil_columns (Z.of_nat a)))).
    { apply Forall_app. split; [exact Hpr|]. unfold stencil_columns. cbn [map].
      repeat constructor; apply Hok; lia. }
    destruct (critical_point room_map (Z.of_nat yc) (Z.of_nat a)); exact Hnew.
Qed.

(** X1: In every map, every read of the stencil is in a row of the map and in a
    column between 0 and the number of columns W, W included: only the column
    W can lie outside the map. *)
Lemma stencil_reads_bounds (room_map : Mat) :
  Forall (fun p => 0 <= fst p < Z.of_nat (rows room_map) /\
                   0 <= snd p <= Z.of_nat (cols room_map))
         (stencil_reads (sweep room_map)).
Proof.
  set (ok := fun p : Z * Z => 0 <= fst p < Z.of_nat (rows room_map) /\
                              0 <= snd p <= Z.of_nat (cols room_map)).
  assert (Hmark : forall ys yc cm pr, (yc < rows room_map)%nat -> Forall ok pr ->
             Forall ok (probes (mark_critical_points room_map ys yc cm pr))).
  { intros ys yc cm pr Hyc Hpr. unfold mark_critical_points.
    apply mark_pixels_reads; cbn [hit probes]; try (congruence || lia || assumption).
    intros c Hc. unfold ok. cbn [fst snd]. lia. }
  assert (Hrow : forall s y, (1 <= y < rows room_map)%nat ->
             Forall ok (stencil_reads s) ->
             Forall ok (stencil_reads (sweep_row room_map s y))).
  { intros s y Hy Hs. unfold sweep_row.
    destruct (previous_number_of_segments s <? count_segments room_map y);
      [cbn [stencil_reads]; apply Hmark; [lia | exact Hs]|].
    destruct (count_segments room_map y <? previous_number_of_segments s);
      [cbn [stencil_reads]; apply Hmark; [lia | exact Hs] | exact Hs]. }
  unfold sweep.
  assert (Hys : Forall (fun y => (1 <= y < rows room_map)%nat)
                  (seq (S (y_start (find_start room_map)))
                       (rows room_map - S (y_start (find_start room_map))))).
  { apply Forall_forall. intros y Hy. apply list_elem_of_In, in_seq in Hy. lia. }
  revert Hys.
  generalize (seq (S (y_start (find_start room_map)))
                  (rows room_map - S (y_start (find_start room_map)))).
  assert (H0 : Forall ok (stencil_reads
                            (mkSweep (n_start (find_start room_map)) room_map [])))
    by constructor.
  revert H0. generalize (mkSweep (n_start (find_start room_map)) room_map []).
  intros s Hs ys. revert s Hs.
  induction ys as [|y ys IH]; intros s Hs Hys; cbn [fold_left]; [exact Hs|].
  inversion Hys; subst. apply IH; [apply Hrow|]; assumption.
Qed.

(** * Further properties of the planner *)

(** ** The segments of a slice *)

Lemma count_fold_found (l : list Z) :
  Forall (fun v => v = OBSTACLE \/ v = FREE) l ->
  forall s, hit_white_pixel s = true ->
    let s' := fold_left count_pixel l s in
    hit_white_pixel s' = true /\
    number_of_segments s'
    = number_of_segments s + obstacle_runs l
      - (if obstacle_hit s && match l with w :: _ => w =? 0 | [] => false end
         then 1 else 0).
Proof.
  induction 1 as [|v l Hv Hl IH]; intros s Hs; cbn [fold_left].
  - cbn. rewrite andb_false_r. split; [assumption | lia].
  - cbn zeta in IH.
    assert (Hstep : hit_white_pixel (count_pixel s v) = true /\
                    obstacle_hit (count_pixel s v) = (v =? 0) /\
                    number_of_segments (count_pixel s v)
                    = number_of_segments s
                      + (if negb (obstacle_hit s) && (v =? 0) then 1 else 0)).
    { unfold count_pixel. rewrite Hs.
      destruct Hv as [-> | ->]; unfold OBSTACLE, FREE; cbn;
        destruct (obstacle_hit s) eqn:Eo; cbn; rewrite ?Eo; repeat split;
        first [reflexivity | assumption | lia]. }
    destruct Hstep as (Hf & Ho & Hn).
    destruct (IH _ Hf) as (IHf & IHn).
    rewrite IHf, IHn, Hn, Ho. split; [reflexivity|].
    cbn [obstacle_runs].
    destruct Hv as [-> | ->]; unfold OBSTACLE, FREE; cbn;
      destruct (obstacle_hit s); cbn;
      destruct l as [|w l]; cbn; try destruct (w =? 0); cbn; lia.
Qed.

Lemma count_fold_search (l : list Z) :
  Forall (fun v => v = OBSTACLE \/ v = FREE) l ->
  forall s, hit_white_pixel s = false -> obstacle_hit s = false ->
    number_of_segments (fold_left count_pixel l s)
    = number_of_segments s + obstacle_runs (after_first_free l).
Proof.
  induction 1 as [|v l Hv Hl IH]; intros s Hs Ho; cbn [fold_left after_first_free].
  - cbn. lia.
  - destruct Hv as [-> | ->]; unfold OBSTACLE, FREE.
    + change (0 =? 255) with false. cbv iota.
      replace (count_pixel s 0) with s
        by (unfold count_pixel; rewrite Hs; reflexivity).
      apply IH; assumption.
    + change (255 =? 255) with true. cbv iota.
      replace (count_pixel s 255) with (mkSlice true false (number_of_segments s))
        by (unfold count_pixel; rewrite Hs, Ho; reflexivity).
      destruct (count_fold_found l Hl (mkSlice true false (number_of_segments s))
                  eq_refl) as (_ & Hn).
      cbn [number_of_segments obstacle_hit andb] in Hn. rewrite Hn.
      cbn [obstacle_runs]. change (255 =? 0) with false. cbn. lia.
Qed.

(** X2: The number of segments of slice y of a rectangular map of free and
    obstacle pixels is the number of maximal obstacle runs that lie after the
    first free pixel of the row; a row without a free pixel has none. *)
Theorem count_segments_obstacle_runs (room_map : Mat) (y : nat) (r : list Z) :
  rectangular room_map -> binary room_map -> room_map !! y = Some r ->
  count_segments room_map y = obstacle_runs (after_first_free r) /\
  (has_free r = false -> count_segments room_map y = 0).
Proof.
  intros Hrect Hbin Hy. unfold count_segments.
  rewrite (row_pixels_lookup room_map y r Hrect Hy).
  assert (Hr : Forall (fun v => v = OBSTACLE \/ v = FREE) r).
  { unfold binary in Hbin. rewrite Forall_forall in Hbin. apply Hbin.
    eapply list_elem_of_lookup_2. exact Hy. }
  rewrite (count_fold_search r Hr (mkSlice false false 0) eq_refl eq_refl).
  cbn [number_of_segments]. split; [lia|].
  intros Hno. destruct (after_first_free_cases r) as [[_ ->] | [H _]];
    [reflexivity | congruence].
Qed.

(** ** Maps without an event *)

(** X4: When every slice below [y_start] has as many segments as slice
    [y_start], no event occurs: the map handed to the contour finder is the
    input map, and the stencil reads nothing. *)
Theorem no_event_no_separation (room_map : Mat) :
  (forall y, (y_start (find_start room_map) < y < rows room_map)%nat ->
     count_segments room_map y = n_start (find_start room_map)) ->
  decompose room_map = room_map /\ stencil_reads (sweep room_map) = [].
Proof.
  intros Hsame.
  assert (Hsweep : sweep room_map
                   = mkSweep (n_start (find_start room_map)) room_map []).
  { unfold sweep.
    assert (Hys : Forall (fun y => (y_start (find_start room_map) < y
                                    < rows room_map)%nat)
                    (seq (S (y_start (find_start room_map)))
                         (rows room_map - S (y_start (find_start room_map))))).
    { apply Forall_forall. intros y Hy. apply list_elem_of_In, in_seq in Hy. lia. }
    induction Hys as [|y ys Hy Hys IH]; cbn [fold_left]; [reflexivity|].
    replace (sweep_row room_map
               (mkSweep (n_start (find_start room_map)) room_map []) y)
      with (mkSweep (n_start (find_start room_map)) room_map []); [exact IH|].
    unfold sweep_row. rewrite (Hsame y Hy).
    cbn [previous_number_of_segments marked stencil_reads].
    rewrite Z.ltb_irrefl. reflexivity. }
  unfold decompose. rewrite Hsweep. split; reflexivity.
Qed.

(** ** Where a separation is painted *)

Lemma paint_left_range (c : nat) :
  forall r i, (i = 0 \/ c < i)%nat -> paint_left r c !! i = r !! i.
Proof.
  induction c as [|c IH]; intros r i Hi; cbn [paint_left]; [reflexivity|].
  destruct (r !! S c) as [v|] eqn:Hv; [|reflexivity].
  destruct (v =? 255).
  - rewrite IH by lia. apply list_lookup_insert_ne. lia.
  - destruct (v =? 0); [reflexivity | apply IH; lia].
Qed.

Lemma paint_right_range (k : nat) :
  forall r c i, (i < c)%nat -> paint_right r c k !! i = r !! i.
Proof.
  induction k as [|k IH]; intros r c i Hi; cbn [paint_right]; [reflexivity|].
  destruct (r !! c) as [v|] eqn:Hv; [|reflexivity].
  destruct (v =? 255).
  - rewrite IH by lia. apply list_lookup_insert_ne. lia.
  - destruct (v =? 0); [reflexivity | apply IH; lia].
Qed.

Lemma paint_left_stops (c : nat) :
  forall r j i, r !! j = Some 0 -> (1 <= j <= c)%nat -> (i <= j)%nat ->
    paint_left r c !! i = r !! i.
Proof.
  induction c as [|c IH]; intros r j i Hj Hjc Hi; cbn [paint_left]; [reflexivity|].
  destruct (r !! S c) as [v|] eqn:Hv; [|reflexivity].
  destruct (decide (j = S c)) as [-> | Hne].
  - assert (v = 0) as -> by congruence. reflexivity.
  - destruct (v =? 255).
    + rewrite (IH _ j i) by (try rewrite list_lookup_insert_ne by lia; (assumption || lia)).
      apply list_lookup_insert_ne. lia.
    + destruct (v =? 0); [reflexivity | apply (IH r j i); (assumption || lia)].
Qed.

Lemma paint_right_stops (k : nat) :
  forall r c j i, r !! j = Some 0 -> (c <= j)%nat -> (j <= i)%nat ->
    paint_right r c k !! i = r !! i.
Proof.
  induction k as [|k IH]; intros r c j i Hj Hcj Hi; cbn [paint_right];
    [reflexivity|].
  destruct (r !! c) as [v|] eqn:Hv; [|reflexivity].
  destruct (decide (j = c)) as [-> | Hne].
  - assert (v = 0) as -> by congruence. reflexivity.
  - destruct (v =? 255).
    + rewrite (IH _ (S c) j i) by (try rewrite list_lookup_insert_ne by lia; (assumption || lia)).
      apply list_lookup_insert_ne. lia.
    + destruct (v =? 0); [reflexivity | apply (IH r (S c) j i); (assumption || lia)].
Qed.

Lemma pixel_paint_other_row (width : nat) (cm : Mat) (y x y' i : nat) :
  y' <> y -> pixel (paint width cm y x) y' i = pixel cm y' i.
Proof.
  intros Hne. unfold paint, pixel. destruct (cm !! y); [|reflexivity].
  rewrite list_lookup_insert_ne by congruence. reflexivity.
Qed.

Lemma pixel_paint_row (width : nat) (cm : Mat) (y x i : nat) (r : list Z) :
  cm !! y = Some r -> pixel (paint width cm y x) y i = paint_row width r x !! i.
Proof.
  intros Hr. unfold paint, pixel. rewrite Hr.
  rewrite list_lookup_insert_eq by (eapply lookup_lt_Some; exact Hr). reflexivity.
Qed.

(** X6: The separation painted from the critical point (y,x) stays in row y, and
    in that row it does not pass an obstacle pixel: the pixels from an
    obstacle pixel left of x leftwards, the pixels from an obstacle pixel
    right of x rightwards, and the pixel x itself keep their values. *)
Theorem separation_stops_at_obstacles (width : nat) (cm : Mat) (y x j : nat)
    (r : list Z) :
  cm !! y = Some r -> r !! j = Some OBSTACLE ->
  (forall y' i, y' <> y -> pixel (paint width cm y x) y' i = pixel cm y' i) /\
  pixel (paint width cm y x) y x = r !! x /\
  (forall i, (j < x)%nat -> (i <= j)%nat ->
     pixel (paint width cm y x) y i = r !! i) /\
  (forall i, (x < j)%nat -> (j <= i)%nat ->
     pixel (paint width cm y x) y i = r !! i).
Proof.
  intros Hr Hj. unfold OBSTACLE in Hj.
  split; [intros; apply pixel_paint_other_row; assumption|].
  rewrite !(pixel_paint_row width cm y x _ r Hr). unfold paint_row.
  split; [|split].
  - rewrite paint_right_range by lia. apply paint_left_range.
    destruct x; cbn; lia.
  - intros i Hjx Hi. rewrite (pixel_paint_row width cm y x _ r Hr). unfold paint_row.
    rewrite paint_right_range by lia.
    destruct (decide (j = 0%nat)) as [-> | Hj0].
    + apply paint_left_range. lia.
    + apply (paint_left_stops (pred x) r j i Hj); lia.
  - intros i Hxj Hi. rewrite (pixel_paint_row width cm y x _ r Hr). unfold paint_row.
    transitivity (paint_left r (pred x) !! i); [|apply paint_left_range; lia].
    apply (paint_right_stops _ _ (S x) j i); [|lia|lia].
    rewrite paint_left_range by lia. exact Hj.
Qed.

Lemma pixel_paint_column_0 (width : nat) (cm : Mat) (y x y' : nat) :
  pixel (paint width cm y x) y' 0 = pixel cm y' 0.
Proof.
  destruct (decide (y' = y)) as [-> | Hne]; [|apply pixel_paint_other_row; exact Hne].
  destruct (cm !! y) as [r|] eqn:Hr.
  - rewrite (pixel_paint_row width cm y x 0 r Hr). unfold paint_row, pixel.
    rewrite Hr, paint_right_range by lia. apply paint_left_range. lia.
  - unfold paint. rewrite Hr. reflexivity.
Qed.

(** X5: No separation reaches column 0: the loop to the left runs while
    [x+dx > 0].  Every pixel of column 0 of the map handed to the contour
    finder is the pixel of the input map. *)
Theorem column_0_never_painted (room_map : Mat) (y : nat) :
  pixel (decompose room_map) y 0 = pixel room_map y 0.
Proof.
  assert (Hmark : forall ys yc xs s,
             pixel (cell_map (fold_left (mark_pixel room_map ys yc) xs s)) y 0
             = pixel (cell_map s) y 0).
  { intros ys yc xs. induction xs as [|x xs IH]; intros s; cbn [fold_left];
      [reflexivity|].
    rewrite IH. unfold mark_pixel.
    repeat match goal with
           | |- context [if ?b then _ else _] => destruct b
           end; cbn [cell_map]; try reflexivity.
    apply pixel_paint_column_0. }
  assert (Hrow : forall s y',
             pixel (marked (sweep_row room_map s y')) y 0 = pixel (marked s) y 0).
  { intros s y'. unfold sweep_row, mark_critical_points.
    repeat match goal with
           | |- context [if ?b then _ else _] => destruct b
           end; cbn [marked]; try reflexivity; apply Hmark. }
  unfold decompose, sweep.
  generalize (seq (S (y_start (find_start room_map)))
                  (rows room_map - S (y_start (find_start room_map)))).
  change (pixel room_map y 0) with
    (pixel (marked (mkSweep (n_start (find_start room_map)) room_map [])) y 0).
  generalize (mkSweep (n_start (find_start room_map)) room_map []).
  intros s ys. revert s. induction ys as [|y' ys IH]; intros s; cbn [fold_left];
    [reflexivity|].
  rewrite IH. apply Hrow.
Qed.

(** ** The start cell, again *)

Lemma min_index_fold_last (p : Point) (cells : list Polygon) :
  forall mi i0 (j : nat) c,
    cells !! j = Some c -> contains c p = true ->
    exists (i : nat) c',
      fst (fold_left
             (fun (s : Z * Z) cell =>
                (if contains cell p then snd s else fst s, snd s + 1))
             cells (mi, i0)) = i0 + Z.of_nat i /\
      cells !! i = Some c' /\ contains c' p = true /\ (j <= i)%nat.
Proof.
  induction cells as [|c0 cells IH]; intros mi i0 j c Hj Hc; [discriminate|].
  cbn [fold_left fst snd].
  destruct j as [|j].
  - injection Hj as ->. rewrite Hc.
    destruct (min_index_fold p cells i0 (i0 + 1))
      as [(i & c' & Hi & Hc' & Hr) | [Hr _]]; cbn zeta in Hr.
    + exists (S i), c'. rewrite Hr. repeat split; [lia | exact Hi | exact Hc' | lia].
    + exists 0%nat, c. rewrite Hr. repeat split; [lia | exact Hc | lia].
  - destruct (IH (if contains c0 p then i0 else mi) (i0 + 1) j c Hj Hc)
      as (i & c' & Hr & Hi & Hc' & Hle).
    exists (S i), c'. rewrite Hr. repeat split; [lia | exact Hi | exact Hc' | lia].
Qed.

(** X8: The loop over the cells has no [break]: when several cells contain the
    starting point, the one with the greatest index becomes the start node. *)
Theorem min_index_last_containing (cells : list Polygon) (starting_point : Point)
    (j : nat) (c : Polygon) :
  cells !! j = Some c -> contains c starting_point = true ->
  exists (i : nat) c',
    min_index cells starting_point = Z.of_nat i /\
    cells !! i = Some c' /\ contains c' starting_point = true /\ (j <= i)%nat.
Proof.
  intros Hj Hc. unfold min_index.
  destruct (min_index_fold_last starting_point cells 0 0 j c Hj Hc)
    as (i & c' & Hr & Hi & Hc' & Hle).
  exists i, c'. rewrite Hr. split; [lia|]. split; [exact Hi|].
  split; [exact Hc' | exact Hle].
Qed.

(** ** The edges of a line *)

Lemma scan_rightwards_first (room_map : Mat) (width y x0 : Z) (k : nat) :
  forall dx, dx <= x0 -> (x0 = dx \/ x0 < width) ->
    at_ room_map y x0 = FREE ->
    (forall x, dx <= x < x0 -> at_ room_map y x <> FREE) ->
    x0 - dx < Z.of_nat k ->
    scan_rightwards room_map width k y dx = Some x0.
Proof.
  unfold FREE. induction k as [|k IH]; intros dx Hle Hw Hfree Hbefore Hk; [lia|].
  cbn [scan_rightwards].
  destruct (decide (dx = x0)) as [-> | Hne].
  - rewrite Hfree. reflexivity.
  - replace (at_ room_map y dx =? 255) with false
      by (symmetry; apply Z.eqb_neq, Hbefore; lia).
    replace (dx + 1 <? width) with true by (symmetry; apply Z.ltb_lt; lia).
    apply IH; [lia | destruct Hw; lia | exact Hfree
              | intros x Hx; apply Hbefore; lia | lia].
Qed.

Lemma scan_leftwards_first (room_map : Mat) (y x1 : Z) (k : nat) :
  forall dx, x1 <= dx -> (x1 = dx \/ 0 < x1) ->
    at_ room_map y x1 = FREE ->
    (forall x, x1 < x <= dx -> at_ room_map y x <> FREE) ->
    dx - x1 < Z.of_nat k ->
    scan_leftwards room_map k y dx = Some x1.
Proof.
  unfold FREE. induction k as [|k IH]; intros dx Hle Hw Hfree Hbefore Hk; [lia|].
  cbn [scan_leftwards].
  destruct (decide (dx = x1)) as [-> | Hne].
  - rewrite Hfree. reflexivity.
  - replace (at_ room_map y dx =? 255) with false
      by (symmetry; apply Z.eqb_neq, Hbefore; lia).
    replace (0 <? dx - 1) with true by (symmetry; apply Z.ltb_lt; lia).
    apply IH; [lia | destruct Hw; lia | exact Hfree
              | intros x Hx; apply Hbefore; lia | lia].
Qed.

(** X9: The left edge of the line of row y lies R columns right of the first
    free pixel at or after min_x, the right edge R columns left of the last
    free pixel at or before max_x, both in row y.  The scan to the right
    looks at min_x and at the columns below the width of the cell map, the
    scan to the left at max_x and at the columns above 0. *)
Theorem line_edges_at_free_pixels (room_map : Mat)
    (width R min_x max_x y x0 x1 : Z) :
  min_x <= x0 -> (x0 = min_x \/ x0 < width) -> at_ room_map y x0 = FREE ->
  (forall x, min_x <= x < x0 -> at_ room_map y x <> FREE) ->
  x1 <= max_x -> (x1 = max_x \/ 0 < x1) -> at_ room_map y x1 = FREE ->
  (forall x, x1 < x <= max_x -> at_ room_map y x <> FREE) ->
  horizontal_line room_map width R min_x max_x y
  = mkLine (mkPoint (x0 + R) y) (mkPoint (x1 - R) y).
Proof.
  intros Hl0 Hl1 Hl2 Hl3 Hr0 Hr1 Hr2 Hr3.
  unfold horizontal_line, find_left_edge, find_right_edge.
  rewrite (scan_rightwards_first room_map width y x0 _ min_x Hl0 Hl1 Hl2 Hl3)
    by (destruct Hl1; lia).
  rewrite (scan_leftwards_first room_map y x1 _ max_x Hr0 Hr1 Hr2 Hr3)
    by (destruct Hr1; lia).
  reflexivity.
Qed.

(** ** Loops that do not end *)






(** ** Ties between the corners *)

Lemma Qltb_irrefl (a : Q) : Qltb a a = false.
Proof.
  unfold Qltb. replace (Qle_bool a a) with true; [reflexivity|].
  symmetry. apply Qle_bool_iff, Qle_refl.
Qed.

(** X12: A cell with one line, whose upper and lower line are the same: the
    lower corners are never strictly nearer than the upper ones, so the line
    counts as the upper line, and it is entered at its left edge unless the
    path to the right edge is strictly shorter. *)
Theorem single_line_entry (fuel : nat) (room_map : Mat) (map_resolution : Q)
    (path_eps : Z) (pos : Point) (path : list Point)
    (line : boustrophedonHorizontalLine) :
  let lf := negb (Qltb (planPath_length room_map pos (right_edge_ line) map_resolution)
                       (planPath_length room_map pos (left_edge_ line) map_resolution)) in
  entry_of room_map map_resolution pos line line = (true, lf) /\
  stitch_cell fuel room_map map_resolution path_eps pos path [line]
  = trace_line fuel room_map map_resolution path_eps
      (mkStitch (entry_corner lf line) lf path) line.
Proof.
  cbn zeta.
  assert (Hentry : entry_of room_map map_resolution pos line line
                   = (true, negb (Qltb (planPath_length room_map pos
                                          (right_edge_ line) map_resolution)
                                       (planPath_length room_map pos
                                          (left_edge_ line) map_resolution)))).
  { unfold entry_of, select_entry. rewrite !Qltb_irrefl.
    rewrite andb_false_l, andb_false_r. reflexivity. }
  split; [exact Hentry|].
  unfold stitch_cell. cbn [last]. rewrite Hentry. cbn [line_order trace_lines].
  destruct (trace_line fuel room_map map_resolution path_eps _ line); reflexivity.
Qed.

(** ** The points of the path through a cell *)

Lemma follow_fold (path_eps : Z) (route : list Point) :
  forall pos path, exists via,
    fold_left (follow path_eps) route (pos, path)
    = (match last via with Some p => p | None => pos end, path ++ via) /\
    sublist via route /\
    (forall (i : nat) p q, (pos :: via) !! i = Some p -> via !! i = Some q ->
       norm_ge p q path_eps = true).
Proof.
  induction route as [|p route IH]; intros pos path; cbn [fold_left].
  - exists []. cbn. rewrite app_nil_r. repeat split; [constructor|].
    intros i a b _ Hb. destruct i; discriminate.
  - unfold follow at 2. cbn [fst snd].
    destruct (norm_ge pos p path_eps) eqn:E.
    + destruct (IH p (path ++ [p])) as (via & Hfold & Hsub & Hsp).
      exists (p :: via). rewrite Hfold, <- app_assoc. split; [|split].
      * f_equal. destruct via as [|q via]; [reflexivity|].
        rewrite last_cons_cons. destruct (last (q :: via)) eqn:El; [reflexivity|].
        apply last_None in El. discriminate.
      * constructor. exact Hsub.
      * intros [|i] a b Ha Hb.
        -- cbn in Ha, Hb. congruence.
        -- apply (Hsp i); assumption.
    + destruct (IH pos path) as (via & Hfold & Hsub & Hsp).
      exists via. split; [exact Hfold|]. split; [|exact Hsp].
      apply sublist_cons. exact Hsub.
Qed.

(** X13: The points taken from an A* path: they are points of that path, in its
    order, and each of them is at least path_eps away from the one taken
    before it, the first from the robot position; the robot ends on the last
    point taken. *)
Theorem route_points_kept_apart (path_eps : Z) (route : list Point)
    (pos : Point) (path : list Point) :
  exists via,
    fold_left (follow path_eps) route (pos, path)
    = (match last via with Some p => p | None => pos end, path ++ via) /\
    sublist via route /\
    (forall (i : nat) p q, (pos :: via) !! i = Some p -> via !! i = Some q ->
       norm_ge p q path_eps = true).
Proof. apply follow_fold. Qed.

(** X14: The points between the two edges of a line, for path_eps >= 1 and
    enough fuel: walking to the right they are the points of the row of the
    left edge at x = left.x + k * path_eps, k = 1, 2, ..., that lie strictly
    left of the right edge; walking to the left the mirror image from the
    right edge.  A line that is not longer than path_eps has none. *)
Theorem walk_points_between (fuel : nat) (l r : Point) (path_eps : Z) :
  1 <= path_eps -> Z.max 1 (pt_x r - pt_x l) < Z.of_nat fuel ->
  exists to_right to_left,
    walk_right fuel l r path_eps path_eps = Some to_right /\
    walk_left fuel l r path_eps (- path_eps) = Some to_left /\
    Z.of_nat (length to_right) = Z.max 0 ((pt_x r - pt_x l - 1) / path_eps) /\
    length to_left = length to_right /\
    (forall (i : nat) p, to_right !! i = Some p ->
       p = mkPoint (pt_x l + (Z.of_nat i + 1) * path_eps) (pt_y l) /\
       pt_x l < pt_x p < pt_x r) /\
    (forall (i : nat) p, to_left !! i = Some p ->
       p = mkPoint (pt_x r - (Z.of_nat i + 1) * path_eps) (pt_y r) /\
       pt_x l < pt_x p < pt_x r).
Proof.
  intros He Hfuel.
  pose proof (strides_fit path_eps _ fuel He Hfuel) as Hfit.
  set (n := (pt_x r - pt_x l - 1) / path_eps) in *.
  assert (Hr : walk_right fuel l r path_eps path_eps
               = Some ((fun j => mkPoint (pt_x l + j * path_eps) (pt_y l))
                         <$> seqZ 1 n)).
  { replace path_eps with (1 * path_eps) at 2 by lia.
    rewrite walk_right_strides by assumption. fold n.
    replace (n - 1 + 1) with n by lia. reflexivity. }
  assert (Hl : walk_left fuel l r path_eps (- path_eps)
               = Some ((fun j => mkPoint (pt_x r - j * path_eps) (pt_y r))
                         <$> seqZ 1 n)).
  { replace (- path_eps) with (- (1 * path_eps)) by lia.
    rewrite walk_left_strides by assumption. fold n.
    replace (n - 1 + 1) with n by lia. reflexivity. }
  eexists _, _. split; [exact Hr|]. split; [exact Hl|].
  rewrite !length_fmap, !length_seqZ.
  split; [lia|]. split; [reflexivity|].
  split; intros i p Hp; rewrite list_lookup_fmap in Hp;
    destruct (seqZ 1 n !! i) as [j|] eqn:Hj; try discriminate;
    apply lookup_seqZ in Hj as [-> Hi]; cbn in Hp; injection Hp as <-;
    cbn [pt_x];
    assert (Hk : (1 + Z.of_nat i) * path_eps < pt_x r - pt_x l)
      by (apply stride_below; [lia | unfold n in Hi; lia]);
    (split; [f_equal; lia | nia]).
Qed.

Lemma trace_line_end (fuel : nat) (room_map : Mat) (map_resolution : Q)
    (path_eps : Z) (s s' : stitch_state) (line : boustrophedonHorizontalLine) :
  trace_line fuel room_map map_resolution path_eps s line = Some s' ->
  left s' = negb (left s) /\
  robot_pos s' = entry_corner (left s') line /\
  last (fow_middlepoint_path s') = Some (robot_pos s').
Proof.
  unfold trace_line. destruct (left s).
  - destruct (walk_right fuel _ _ path_eps path_eps) as [between|];
      [|discriminate].
    cbn [mbind option_bind]. intros [= <-]. cbn [left robot_pos fow_middlepoint_path].
    repeat split. cbn [app]. rewrite app_comm_cons, app_assoc. apply last_snoc.
  - destruct (walk_left fuel _ _ path_eps (- path_eps)) as [between|];
      [|discriminate].
    cbn [mbind option_bind]. intros [= <-]. cbn [left robot_pos fow_middlepoint_path].
    repeat split. cbn [app]. rewrite app_comm_cons, app_assoc. apply last_snoc.
Qed.

Lemma trace_lines_end (fuel : nat) (room_map : Mat) (map_resolution : Q)
    (path_eps : Z) (lines : list boustrophedonHorizontalLine) :
  forall s s' lowest,
    trace_lines fuel room_map map_resolution path_eps s lines = Some s' ->
    last lines = Some lowest ->
    robot_pos s' = entry_corner (left s') lowest /\
    last (fow_middlepoint_path s') = Some (robot_pos s') /\
    left s' = (if Nat.even (length lines) then left s else negb (left s)).
Proof.
  induction lines as [|line rest IH]; intros s s' lowest Hrun Hlast; [discriminate|].
  cbn [trace_lines] in Hrun.
  destruct (trace_line fuel room_map map_resolution path_eps s line) as [s1|] eqn:E;
    [|discriminate].
  cbn [mbind option_bind] in Hrun.
  destruct (trace_line_end _ _ _ _ _ _ _ E) as (Hl & Hp & Hlast1).
  destruct rest as [|line2 rest].
  - cbn in Hrun, Hlast. injection Hrun as <-. injection Hlast as <-.
    repeat split; assumption.
  - rewrite last_cons_cons in Hlast.
    destruct (IH s1 s' lowest Hrun Hlast) as (H1 & H2 & H3).
    split; [exact H1|]. split; [exact H2|].
    rewrite H3, Hl. change (length (line :: line2 :: rest))
      with (S (length (line2 :: rest))).
    rewrite Nat.even_succ, <- Nat.negb_even.
    destruct (Nat.even (length (line2 :: rest))), (left s); reflexivity.
Qed.

Lemma last_rev_head {A} (l : list A) : last (rev l) = head l.
Proof. destruct l as [|a l]; [reflexivity|]. cbn [rev]. apply last_snoc. Qed.

(** X17: The path of a cell with path_eps >= 1, for every list of lines and every
    A* planner, with enough fuel for the longest line: the points added are a
    serpentine over the lines in the order of the entry chosen, the last
    point added is the edge on which the last line is left, and the robot
    position handed to the next cell is that edge. *)
Theorem cell_path_is_serpentine (fuel : nat) (room_map : Mat) (map_resolution : Q)
    (path_eps : Z) (pos : Point) (path : list Point)
    (lines : list boustrophedonHorizontalLine)
    (first lowest : boustrophedonHorizontalLine) :
  1 <= path_eps -> Forall (line_fits fuel) lines ->
  head lines = Some first -> last lines = Some lowest ->
  exists s pts,
    stitch_cell fuel room_map map_resolution path_eps pos path lines = Some s /\
    fow_middlepoint_path s = path ++ pts /\
    serpentine path_eps
      (snd (entry_of room_map map_resolution pos first lowest))
      (line_order (fst (entry_of room_map map_resolution pos first lowest)) lines)
      pts /\
    last (fow_middlepoint_path s) = Some (robot_pos s) /\
    robot_pos s
    = entry_corner (left s)
        (if fst (entry_of room_map map_resolution pos first lowest)
         then lowest else first).
Proof.
  intros He Hfit Hfirst Hlast.
  destruct (stitch_cell_serpentine fuel room_map map_resolution path_eps pos path
              lines first lowest He Hfit Hfirst Hlast)
    as (s & pts & Hrun & Hpath & Hserp).
  exists s, pts. split; [exact Hrun|]. split; [exact Hpath|]. split; [exact Hserp|].
  unfold stitch_cell in Hrun.
  destruct lines as [|l0 rest]; [discriminate|]. injection Hfirst as ->.
  rewrite Hlast in Hrun.
  destruct (entry_of room_map map_resolution pos first lowest) as [upper lf].
  cbn [fst].
  destruct (line_order upper (first :: rest)) as [|entry tl] eqn:Hord;
    [discriminate|].
  assert (Hend : last (entry :: tl) = Some (if upper then lowest else first)).
  { rewrite <- Hord. destruct upper; cbn [line_order]; [exact Hlast|].
    rewrite last_rev_head. reflexivity. }
  destruct (trace_lines_end _ _ _ _ _ _ _ _ Hrun Hend) as (H1 & H2 & _).
  split; assumption.
Qed.

(** X15: One turn of the loop over the lines, for path_eps >= 1 and enough fuel:
    the path grows by points of the A* path to the entry edge, in their
    order, and then by the pass over the line from the entry edge to the
    other edge; the robot is left on that other edge and the direction is
    reversed for the next line. *)
Theorem trace_line_adds_route_and_pass (fuel : nat) (room_map : Mat)
    (map_resolution : Q) (path_eps : Z) (s : stitch_state)
    (line : boustrophedonHorizontalLine) :
  1 <= path_eps -> line_fits fuel line ->
  exists via,
    sublist via (planPath_points room_map (robot_pos s)
                   (entry_corner (left s) line) map_resolution) /\
    trace_line fuel room_map map_resolution path_eps s line
    = Some (mkStitch (entry_corner (negb (left s)) line) (negb (left s))
              (fow_middlepoint_path s ++ via ++ pass path_eps (left s) line)).
Proof.
  intros He Hfit. unfold line_fits in Hfit. unfold trace_line, pass, strides.
  pose proof (strides_fit path_eps _ fuel He Hfit) as Hfuel.
  destruct (left s); cbn [negb entry_corner].
  - destruct (follow_fold path_eps
                (planPath_points room_map (robot_pos s) (left_edge_ line)
                   map_resolution)
                (robot_pos s) (fow_middlepoint_path s)) as (via & Hvia & Hsub & _).
    exists via. split; [exact Hsub|]. rewrite Hvia. cbn [snd].
    replace path_eps with (1 * path_eps) at 2 by lia.
    rewrite walk_right_strides by assumption. cbn [mbind option_bind].
    rewrite map_map.
    replace ((pt_x (right_edge_ line) - pt_x (left_edge_ line) - 1) / path_eps - 1 + 1)
      with ((pt_x (right_edge_ line) - pt_x (left_edge_ line) - 1) / path_eps) by lia.
    rewrite <- !app_assoc. reflexivity.
  - destruct (follow_fold path_eps
                (planPath_points room_map (robot_pos s) (right_edge_ line)
                   map_resolution)
                (robot_pos s) (fow_middlepoint_path s)) as (via & Hvia & Hsub & _).
    exists via. split; [exact Hsub|]. rewrite Hvia. cbn [snd].
    replace (- path_eps) with (- (1 * path_eps)) by lia.
    rewrite walk_left_strides by assumption. cbn [mbind option_bind].
    rewrite map_map.
    replace ((pt_x (right_edge_ line) - pt_x (left_edge_ line) - 1) / path_eps - 1 + 1)
      with ((pt_x (right_edge_ line) - pt_x (left_edge_ line) - 1) / path_eps) by lia.
    rewrite <- !app_assoc. reflexivity.
Qed.

(** ** The poses of the path *)

Lemma pose_of_waypoint (path : list Point) (i : nat) (p : Point) :
  path !! i = Some p ->
  length (fow_poses path) = length path /\
  exists q,
    path !! ((i + 1) mod length path)%nat = Some q /\
    fow_poses path !! i
    = Some (mkPose (inject_Z (pt_x p)) (inject_Z (pt_y p))
              (atan2 (pt_y q - pt_y p) (pt_x q - pt_x p))).
Proof.
  intros Hp. unfold fow_poses. split; [apply length_imap|].
  assert (Hlt : ((i + 1) mod length path < length path)%nat).
  { apply Nat.mod_upper_bound. apply lookup_lt_Some in Hp. lia. }
  destruct (lookup_lt_is_Some_2 _ _ Hlt) as [q Hq].
  exists q. split; [exact Hq|].
  rewrite list_lookup_imap, Hp. cbn [fmap option_fmap option_map].
  unfold pose_at. rewrite (nth_lookup_Some _ _ _ _ Hq). reflexivity.
Qed.

(** X18: The path returned for the robot footprint, pose by pose: the poses handed
    in stay in front, and there is one new pose for every point of the
    field-of-view path.  Pose i of them has the coordinates of point i
    scaled by the resolution and shifted by the origin, and the angle of the
    vector from point i to point i+1, taken modulo the number of points: the
    last pose looks towards the first point. *)
Theorem returned_pose_of_waypoint (fuel : nat) (room_map : Mat)
    (path : list Pose2D) (map_resolution : Q) (starting_position : Point)
    (map_origin : Q * Q) (fitting_circle_radius : Q) (path_eps : Z)
    (robot_to_fow_vector : Q * Q) (points : list Point) (i : nat) (p : Point) :
  fow_path fuel room_map map_resolution starting_position fitting_circle_radius
           path_eps = Some points ->
  points !! i = Some p ->
  exists q out,
    points !! ((i + 1) mod length points)%nat = Some q /\
    getExplorationPath fuel room_map path map_resolution starting_position
      map_origin fitting_circle_radius path_eps true robot_to_fow_vector
    = Some out /\
    length out = (length path + length points)%nat /\
    (forall k pose, path !! k = Some pose -> out !! k = Some pose) /\
    out !! (length path + i)%nat
    = Some (mkPose (inject_Z (pt_x p) * map_resolution + fst map_origin)%Q
                   (inject_Z (pt_y p) * map_resolution + snd map_origin)%Q
                   (atan2 (pt_y q - pt_y p) (pt_x q - pt_x p))).
Proof.
  intros Hpts Hp.
  destruct (pose_of_waypoint points i p Hp) as (Hlen & q & Hq & Hpose).
  exists q. eexists. split; [exact Hq|].
  unfold getExplorationPath. rewrite Hpts. cbn [mbind option_bind].
  split; [reflexivity|].
  change (map (to_world map_resolution map_origin) (fow_poses points))
    with (to_world map_resolution map_origin <$> fow_poses points).
  split; [rewrite length_app, length_fmap, Hlen; reflexivity|].
  split; [intros k pose Hk; apply lookup_app_l_Some; exact Hk|].
  rewrite lookup_app_r by lia.
  replace (length path + i - length path)%nat with i by lia.
  rewrite list_lookup_fmap, Hpose. reflexivity.
Qed.

(** ** The planner ends *)

Lemma settles_bind {A B} (f : nat -> option A) (g : A -> nat -> option B)
    (v : A) (w : B) :
  settles f v -> settles (g v) w ->
  settles (fun fuel => x ← f fuel; g x fuel) w.
Proof.
  intros [N Hf] [M Hg]. exists (Nat.max N M). intros fuel Hfuel.
  rewrite Hf by lia. cbn [mbind option_bind]. apply Hg. lia.
Qed.

Lemma candidate_rows_settles (R max_y : Z) :
  1 <= R -> forall (n : nat) y, (Z.to_nat (max_y - y) <= n)%nat ->
  exists ys, ys <> [] /\
    forall fuel, (n < fuel)%nat -> candidate_rows fuel R max_y y = Some ys.
Proof.
  intros HR. induction n as [|n IH]; intros y Hn.
  - exists [y]. split; [discriminate|]. intros [|fuel] Hfuel; [lia|].
    cbn [candidate_rows].
    replace (y + R <=? max_y) with false by (symmetry; apply Z.leb_gt; lia).
    reflexivity.
  - destruct (Z.leb_spec (y + R) max_y) as [Hle | Hgt].
    + destruct (IH (y + R) ltac:(lia)) as (ys & _ & Hys).
      exists (y :: ys). split; [discriminate|]. intros [|fuel] Hfuel; [lia|].
      cbn [candidate_rows].
      replace (y + R <=? max_y) with true by (symmetry; apply Z.leb_le; lia).
      rewrite Hys by lia. reflexivity.
    + exists [y]. split; [discriminate|]. intros [|fuel] Hfuel; [lia|].
      cbn [candidate_rows].
      replace (y + R <=? max_y) with false by (symmetry; apply Z.leb_gt; lia).
      reflexivity.
Qed.

Lemma path_lines_settles (room_map : Mat) (width : Z) (box : Z * Z * Z * Z)
    (R : Z) :
  1 <= R ->
  exists lines, lines <> [] /\
    settles (fun fuel => path_lines fuel room_map width box R) lines.
Proof.
  intros HR. destruct box as [[[min_x max_x] min_y] max_y].
  destruct (candidate_rows_settles R max_y HR
              (Z.to_nat (max_y - first_row min_y max_y R))
              (first_row min_y max_y R) ltac:(lia)) as (ys & Hne & Hys).
  exists (map (horizontal_line room_map width R min_x max_x) ys).
  split; [destruct ys; [contradiction | discriminate]|].
  exists (S (Z.to_nat (max_y - first_row min_y max_y R))). intros fuel Hfuel.
  unfold path_lines. rewrite line_loop_candidate_rows, Hys by lia. reflexivity.
Qed.

Lemma trace_line_value (fuel : nat) (room_map : Mat) (map_resolution : Q)
    (path_eps : Z) (s : stitch_state) (line : boustrophedonHorizontalLine) :
  1 <= path_eps -> line_fits fuel line ->
  trace_line fuel room_map map_resolution path_eps s line
  = Some (mkStitch (entry_corner (negb (left s)) line) (negb (left s))
            (snd (fold_left (follow path_eps)
                    (planPath_points room_map (robot_pos s)
                       (entry_corner (left s) line) map_resolution)
                    (robot_pos s, fow_middlepoint_path s))
             ++ pass path_eps (left s) line)).
Proof.
  intros He Hfit. unfold line_fits in Hfit. unfold trace_line, pass, strides.
  pose proof (strides_fit path_eps _ fuel He Hfit) as Hfuel.
  destruct (left s); cbn [negb entry_corner].
  - replace path_eps with (1 * path_eps) at 2 by lia.
    rewrite walk_right_strides by assumption. cbn [mbind option_bind].
    rewrite map_map.
    replace ((pt_x (right_edge_ line) - pt_x (left_edge_ line) - 1) / path_eps - 1 + 1)
      with ((pt_x (right_edge_ line) - pt_x (left_edge_ line) - 1) / path_eps) by lia.
    reflexivity.
  - replace (- path_eps) with (- (1 * path_eps)) by lia.
    rewrite walk_left_strides by assumption. cbn [mbind option_bind].
    rewrite map_map.
    replace ((pt_x (right_edge_ line) - pt_x (left_edge_ line) - 1) / path_eps - 1 + 1)
      with ((pt_x (right_edge_ line) - pt_x (left_edge_ line) - 1) / path_eps) by lia.
    reflexivity.
Qed.

Lemma trace_lines_settles (room_map : Mat) (map_resolution : Q) (path_eps : Z)
    (lines : list boustrophedonHorizontalLine) :
  1 <= path_eps ->
  forall s, exists s',
    settles (fun fuel => trace_lines fuel room_map map_resolution path_eps s lines) s'.
Proof.
  intros He. induction lines as [|line rest IH]; intros s.
  - exists s, 0%nat. reflexivity.
  - assert (Hstep : exists s1,
               settles (fun fuel => trace_line fuel room_map map_resolution
                                      path_eps s line) s1).
    { eexists.
      exists (S (Z.to_nat (Z.max 1 (pt_x (right_edge_ line)
                                    - pt_x (left_edge_ line))))).
      intros fuel Hfuel. apply trace_line_value; [exact He|].
      unfold line_fits. lia. }
    destruct Hstep as [s1 Hs1]. destruct (IH s1) as [s' Hs'].
    exists s'. cbn [trace_lines].
    exact (settles_bind _ (fun x fuel => trace_lines fuel room_map map_resolution
                                           path_eps x rest) s1 s' Hs1 Hs').
Qed.

Lemma stitch_cell_settles (room_map : Mat) (map_resolution : Q) (path_eps : Z)
    (pos : Point) (path : list Point) (lines : list boustrophedonHorizontalLine) :
  1 <= path_eps -> lines <> [] ->
  exists s,
    settles (fun fuel => stitch_cell fuel room_map map_resolution path_eps
                           pos path lines) s.
Proof.
  intros He Hne. unfold stitch_cell.
  destruct lines as [|first rest]; [contradiction|].
  destruct (last (first :: rest)) as [lowest|] eqn:Hlast;
    [|apply last_None in Hlast; discriminate].
  destruct (entry_of room_map map_resolution pos first lowest) as [upper lf].
  destruct (line_order upper (first :: rest)) as [|entry tl] eqn:Hord.
  - exfalso. destruct upper; cbn [line_order] in Hord; [discriminate|].
    destruct (rev_last _ _ Hlast) as [l' Hrev]. congruence.
  - apply trace_lines_settles. exact He.
Qed.

Lemma plan_cell_settles (room_map : Mat) (map_resolution : Q) (R path_eps : Z)
    (pos : Point) (path : list Point) (current_cell : Polygon) :
  1 <= R -> 1 <= path_eps ->
  exists s,
    settles (fun fuel => plan_cell fuel room_map map_resolution R path_eps
                           pos path current_cell) s.
Proof.
  intros HR He. unfold plan_cell.
  destruct (path_lines_settles room_map (drawPolygon_cols current_cell)
              (getMinMaxCoordinates current_cell) R HR) as (lines & Hne & Hlines).
  destruct (stitch_cell_settles room_map map_resolution path_eps pos path lines
              He Hne) as [s Hs].
  exists s.
  exact (settles_bind _ (fun x fuel => stitch_cell fuel room_map map_resolution
                                         path_eps pos path x) lines s Hlines Hs).
Qed.

Lemma plan_cells_settles (room_map : Mat) (map_resolution : Q) (R path_eps : Z)
    (cells : list Polygon) (order : list Z) (visits : list nat) :
  1 <= R -> 1 <= path_eps ->
  Forall (fun cell => exists i, order !! cell = Some i /\
                                0 <= i < Z.of_nat (length cells)) visits ->
  forall pos path, exists pts,
    settles (fun fuel => plan_cells fuel room_map map_resolution R path_eps
                           cells order visits pos path) pts.
Proof.
  intros HR He Hvalid.
  induction Hvalid as [|cell rest (i & Hi & Hrange) Hrest IH]; intros pos path.
  - exists path, 0%nat. reflexivity.
  - cbn [plan_cells]. rewrite Hi. cbn [mbind option_bind].
    replace (0 <=? i) with true by (symmetry; apply Z.leb_le; lia).
    destruct (lookup_lt_is_Some_2 cells (Z.to_nat i) ltac:(lia)) as [c Hc].
    rewrite Hc. cbn [mbind option_bind].
    destruct (plan_cell_settles room_map map_resolution R path_eps pos path c
                HR He) as [s Hs].
    destruct (IH (robot_pos s) (fow_middlepoint_path s)) as [pts Hpts].
    exists pts.
    exact (settles_bind _ (fun x fuel => plan_cells fuel room_map map_resolution
                                           R path_eps cells order rest
                                           (robot_pos x) (fow_middlepoint_path x))
             s pts Hs Hpts).
Qed.

(** X19: The planner ends.  When the radius is at least one cell, path_eps is at
    least 1 and the visiting order of the TSP solver names a cell of the
    list for each of its first [n] entries, n the number of cells, the call
    returns a path: from some amount of fuel on the result is the same
    list of poses.  Without the two bounds the loops over the rows and along
    a line need not end. *)
Theorem planner_ends (room_map : Mat) (path : list Pose2D) (map_resolution : Q)
    (starting_position : Point) (map_origin : Q * Q) (fitting_circle_radius : Q)
    (path_eps : Z) (plan_for_footprint : bool) (robot_to_fow_vector : Q * Q) :
  1 <= fow_radius_as_int fitting_circle_radius -> 1 <= path_eps ->
  (forall cell, (cell < length (cell_polygons room_map))%nat ->
     exists i, optimal_order room_map map_resolution starting_position !! cell
               = Some i /\
               0 <= i < Z.of_nat (length (cell_polygons room_map))) ->
  exists poses,
    settles (fun fuel =>
               getExplorationPath fuel room_map path map_resolution
                 starting_position map_origin fitting_circle_radius path_eps
                 plan_for_footprint robot_to_fow_vector) poses.
Proof.
  intros HR He Hvalid.
  assert (Hv : Forall (fun cell => exists i,
                 optimal_order room_map map_resolution starting_position !! cell
                 = Some i /\ 0 <= i < Z.of_nat (length (cell_polygons room_map)))
                 (seq 0 (length (cell_polygons room_map)))).
  { apply Forall_forall. intros cell Hcell. apply Hvalid.
    apply list_elem_of_In, in_seq in Hcell. lia. }
  destruct (plan_cells_settles room_map map_resolution
              (fow_radius_as_int fitting_circle_radius) path_eps
              (cell_polygons room_map)
              (optimal_order room_map map_resolution starting_position)
              _ HR He Hv starting_position []) as [pts [N Hpts]].
  unfold getExplorationPath, fow_path.
  destruct plan_for_footprint; eexists; exists N; intros fuel Hfuel;
    rewrite (Hpts fuel Hfuel); reflexivity.
Qed.

(** ** The free run around a critical point *)

Lemma paint_left_fills (c : nat) :
  forall r (lo : nat),
    (forall i, (lo < i <= c)%nat -> r !! i = Some 255) ->
    forall i, (lo < i <= c)%nat -> paint_left r c !! i = Some 0.
Proof.
  induction c as [|c IH]; intros r lo Hfree i Hi; [lia|].
  cbn [paint_left]. rewrite (Hfree (S c)) by lia. change (255 =? 255) with true.
  cbv iota.
  destruct (decide (i = S c)) as [-> | Hne].
  - rewrite paint_left_range by lia. apply list_lookup_insert_eq.
    eapply lookup_lt_Some. apply (Hfree (S c)). lia.
  - apply (IH _ lo); [|lia]. intros i' Hi'.
    rewrite list_lookup_insert_ne by lia. apply Hfree. lia.
Qed.

Lemma paint_right_fills (k : nat) :
  forall r (c hi : nat),
    (forall i, (c <= i < hi)%nat -> r !! i = Some 255) -> (hi <= c + k)%nat ->
    forall i, (c <= i < hi)%nat -> paint_right r c k !! i = Some 0.
Proof.
  induction k as [|k IH]; intros r c hi Hfree Hk i Hi; [lia|].
  cbn [paint_right]. rewrite (Hfree c) by lia. change (255 =? 255) with true.
  cbv iota.
  destruct (decide (i = c)) as [-> | Hne].
  - rewrite paint_right_range by lia. apply list_lookup_insert_eq.
    eapply lookup_lt_Some. apply (Hfree c). lia.
  - apply (IH _ (S c) hi); [|lia|lia]. intros i' Hi'.
    rewrite list_lookup_insert_ne by lia. apply Hfree. lia.
Qed.

(** X7: The separation painted from the critical point (y,x) covers the free
    pixels next to x: when the pixels between column lo and x are free they
    are all painted, and so are the free pixels between x and column hi, for
    hi within the width of the map.  Column 0 is the exception: lo is a
    column, so the pixels painted on the left are in the columns 1 and up. *)
Theorem separation_fills_free_run (width : nat) (cm : Mat) (y x lo hi : nat)
    (r : list Z) :
  cm !! y = Some r -> (hi <= width)%nat ->
  (forall i, (lo < i < x)%nat -> r !! i = Some FREE) ->
  (forall i, (x < i < hi)%nat -> r !! i = Some FREE) ->
  forall i, (lo < i < x)%nat \/ (x < i < hi)%nat ->
    pixel (paint width cm y x) y i = Some OBSTACLE.
Proof.
  unfold FREE, OBSTACLE. intros Hr Hhi Hleft Hright i Hi.
  rewrite (pixel_paint_row width cm y x i r Hr). unfold paint_row.
  destruct Hi as [Hi | Hi].
  - rewrite paint_right_range by lia.
    apply (paint_left_fills (pred x) r lo); [|lia].
    intros i' Hi'. apply Hleft. lia.
  - apply (paint_right_fills _ _ (S x) hi); [|lia|lia].
    intros i' Hi'. rewrite paint_left_range by lia. apply Hright. lia.
Qed.

(** ** The rows of the lines *)

Lemma rows_below (R D k : Z) : 1 <= R -> (k * R <= D <-> k <= D / R).
Proof.
  intros HR. split; intros H.
  - apply Z.div_le_lower_bound; lia.
  - pose proof (Z.mul_div_le D R ltac:(lia)). nia.
Qed.

Lemma candidate_rows_arithmetic (R max_y y0 : Z) :
  1 <= R -> y0 <= max_y ->
  forall fuel k, 0 <= k <= (max_y - y0) / R ->
    (max_y - y0) / R - k < Z.of_nat fuel ->
    candidate_rows fuel R max_y (y0 + k * R)
    = Some (map (fun j => y0 + j * R) (seqZ k ((max_y - y0) / R - k + 1))).
Proof.
  intros HR Hy0. induction fuel as [|fuel IH]; intros k Hk Hfuel; [lia|].
  cbn [candidate_rows]. rewrite (seqZ_cons k) by lia. cbn [map].
  destruct (y0 + k * R + R <=? max_y) eqn:E.
  - apply Z.leb_le in E.
    assert (Hk1 : k + 1 <= (max_y - y0) / R) by (apply rows_below; lia).
    replace (y0 + k * R + R) with (y0 + (k + 1) * R) by lia.
    rewrite IH by lia. cbn [fmap option_fmap option_map].
    repeat f_equal; lia.
  - apply Z.leb_gt in E.
    assert (Hk1 : ~ k + 1 <= (max_y - y0) / R)
      by (rewrite <- rows_below by lia; lia).
    rewrite seqZ_nil by lia. reflexivity.
Qed.

(** X10: The rows of the lines of a cell, for a radius R >= 1: when the first row
    is not below max_y, the lines lie in the rows first_row + k * R for
    k = 0, ..., (max_y - first_row) / R, each with the edges found in its
    row; otherwise the one line of the first row is all there is. *)
Theorem line_rows_arithmetic (fuel : nat) (room_map : Mat)
    (width min_x max_x min_y max_y R : Z) :
  1 <= R -> Z.max 0 ((max_y - first_row min_y max_y R) / R) < Z.of_nat fuel ->
  path_lines fuel room_map width (min_x, max_x, min_y, max_y) R
  = Some (map (horizontal_line room_map width R min_x max_x)
            (if first_row min_y max_y R <=? max_y
             then map (fun k => first_row min_y max_y R + k * R)
                      (seqZ 0 ((max_y - first_row min_y max_y R) / R + 1))
             else [first_row min_y max_y R])).
Proof.
  intros HR Hfuel. unfold path_lines. rewrite line_loop_candidate_rows.
  set (y0 := first_row min_y max_y R) in *.
  destruct (y0 <=? max_y) eqn:E.
  - apply Z.leb_le in E.
    pose proof (Z.div_pos (max_y - y0) R ltac:(lia) ltac:(lia)) as Hq.
    pose proof (candidate_rows_arithmetic R max_y y0 HR E fuel 0
                  ltac:(lia) ltac:(lia)) as H.
    replace (y0 + 0 * R) with y0 in H by lia.
    replace ((max_y - y0) / R - 0 + 1) with ((max_y - y0) / R + 1) in H by lia.
    rewrite H. reflexivity.
  - apply Z.leb_gt in E. destruct fuel as [|fuel]; [lia|].
    cbn [candidate_rows].
    replace (y0 + R <=? max_y) with false by (symmetry; apply Z.leb_gt; lia).
    reflexivity.
Qed.

(** ** The start slice and the slices below it *)

(** X3: The two counting loops agree: in a rectangular map of free and obstacle
    pixels with a free pixel, [n_start] is the number of segments that the
    loop over the slices would count for slice [y_start], so the first
    comparison of the sweep is between slice [y_start] and the slice below. *)
Theorem n_start_is_count_of_start_slice (room_map : Mat) (y : nat) (r : list Z) :
  rectangular room_map -> binary room_map ->
  room_map !! y = Some r -> has_free r = true ->
  (forall y' r', (y' < y)%nat -> room_map !! y' = Some r' -> has_free r' = false) ->
  n_start (find_start room_map)
  = count_segments room_map (y_start (find_start room_map)).
Proof.
  intros Hrect Hbin Hy Hfree Hbefore.
  pose proof (lookup_lt_Some _ _ _ Hy) as Hlt.
  destruct (init_rows_first_free room_map y r Hrect Hbin Hy Hfree Hbefore
              (length room_map) 0%nat (mkInit 0 0 false false))
    as [H1 H2]; try (cbn; lia); try reflexivity.
  unfold find_start, rows. rewrite H1, H2. cbn [n_start].
  unfold count_segments. rewrite (row_pixels_lookup room_map y r Hrect Hy).
  assert (Hr : Forall (fun v => v = OBSTACLE \/ v = FREE) r).
  { unfold binary in Hbin. rewrite Forall_forall in Hbin. apply Hbin.
    eapply list_elem_of_lookup_2. exact Hy. }
  rewrite (count_fold_search r Hr (mkSlice false false 0) eq_refl eq_refl).
  reflexivity.
Qed.

End Planner.

(** ** The properties at concrete rooms *)

(** C1: the cell of [walled_room] spans the rows 1..5, a height of 4 = 2R
    for R = 2, and gets two lines, in the rows 3 and 5. *)
Lemma small_cell_two_lines :
  5 - 1 <= 2 * 2 /\
  path_lines no_stray 5 walled_room 12 (1, 10, 1, 5) 2
  = Some [mkLine (mkPoint 3 3) (mkPoint 8 3); mkLine (mkPoint 3 5) (mkPoint 8 5)] /\
  decompose no_stray walled_room = walled_room.
Proof. split; [lia|]. split; vm_compute; reflexivity. Qed.

(** The 50x4 corridor with R = 2: two lines when the cell spans the rows
    0..3, one line when it spans the rows 1..2. *)
Lemma corridor_lines :
  path_lines no_stray 5 corridor 50 (whole_grid_box corridor) 2
  = Some [mkLine (mkPoint 2 1) (mkPoint 47 1); mkLine (mkPoint 2 3) (mkPoint 47 3)] /\
  path_lines no_stray 5 corridor 50 (1, 48, 1, 2) 2
  = Some [mkLine (mkPoint 3 1) (mkPoint 46 1)].
Proof. split; vm_compute; reflexivity. Qed.

Lemma small_cell_lines_witness :
  0 <= 1 <= 2 /\ 1 <= 2 /\ 2 - 1 <= 2 * 2 /\ (2 <= 2)%nat /\
  path_lines no_stray 2 corridor 50 (1, 48, 1, 2) 2
  = Some (map (horizontal_line no_stray corridor 50 2 1 48)
            (if 2 - 1 <? 2 * 2 - 1 then [1 + (2 - 1) / 2]
             else [1 + (2 - 1) / 2; 1 + (2 - 1) / 2 + 2])).
Proof.
  split; [lia|]. split; [lia|]. split; [lia|]. split; [lia|].
  apply (small_cell_lines no_stray 2 corridor 50 1 48 1 2 2); lia.
Defined.

(** C2: row 1 of [nook] has no free pixel in the columns the scan from
    max_x = 1 looks at, and the list has a line for row 1 all the same; its
    right edge is the default point (0,0). *)
Lemma line_without_right_edge :
  scan_leftwards no_stray nook 1 1 1 = None /\
  path_lines no_stray 5 nook 2 (whole_grid_box nook) 1
  = Some [mkLine (mkPoint 1 0) (mkPoint 0 0); mkLine (mkPoint 1 1) (mkPoint 0 0)] /\
  candidate_rows 5 1 1 (first_row 0 1 1) = Some [0; 1].
Proof. repeat split; vm_compute; reflexivity. Qed.

Lemma every_candidate_row_gets_a_line_witness :
  (forall x, x <= 1 -> x = 1 \/ 0 < x -> at_ no_stray nook 1 x <> FREE) /\
  right_edge_ (horizontal_line no_stray nook 2 1 0 1 1) = default_point.
Proof.
  assert (H : forall x, x <= 1 -> x = 1 \/ 0 < x -> at_ no_stray nook 1 x <> FREE).
  { intros x Hx Hor. assert (x = 1) as -> by lia. vm_compute. discriminate. }
  split; [exact H|].
  exact (proj2 (proj2 (every_candidate_row_gets_a_line no_stray 5 nook
                         2 0 1 0 1 1) 1) H).
Defined.

(** C5: the obstacle run at the end of row 0 of [dead_end] is counted,
    though it does not lie between two free pixels. *)
Lemma n_start_counts_trailing_run :
  y_start (find_start no_stray dead_end) = 0%nat /\
  n_start (find_start no_stray dead_end) = 1 /\
  runs_between_free [0; 255; 255; 0] = 0.
Proof. repeat split; vm_compute; reflexivity. Qed.

Lemma find_start_first_free_row_witness :
  rectangular dead_end /\ binary dead_end /\
  dead_end !! 0%nat = Some [0; 255; 255; 0] /\
  has_free [0; 255; 255; 0] = true /\
  (y_start (find_start no_stray dead_end) = 0%nat /\
   n_start (find_start no_stray dead_end)
   = obstacle_runs (after_first_free [0; 255; 255; 0]) /\
   n_start (find_start no_stray dead_end)
   = runs_between_free [0; 255; 255; 0]
     + (if decide (last [0; 255; 255; 0] = Some OBSTACLE) then 1 else 0)).
Proof.
  assert (Hrect : rectangular dead_end) by (repeat constructor).
  assert (Hbin : binary dead_end).
  { unfold binary, dead_end, OBSTACLE, FREE.
    repeat (constructor; try (left; reflexivity); try (right; reflexivity)). }
  split; [exact Hrect|]. split; [exact Hbin|].
  split; [reflexivity|]. split; [reflexivity|].
  apply (find_start_first_free_row no_stray dead_end 0 [0; 255; 255; 0]
           Hrect Hbin eq_refl eq_refl).
  intros y' r' Hlt. lia.
Defined.

(** With the cell spanning the rows 0..99 the planner makes 20 lines, where
    ceil((100 - 2R)/R) + 1 is 19. *)
Lemma square100_not_nineteen_lines :
  length <$> path_lines no_stray 100 square100 100 (whole_grid_box square100) 5
  = Some 20%nat /\
  (100 - 2 * 5 + 5 - 1) / 5 + 1 = 19.
Proof. split; vm_compute; reflexivity. Qed.

Lemma square100_twenty_lines_witness :
  (90 <= 90)%nat /\
  path_lines no_stray 90 square100 100 (whole_grid_box square100) 5
  = Some square100_lines.
Proof.
  split; [lia|].
  apply (square100_twenty_lines no_stray city_block straight_to 90 100 1
           (mkPoint 0 0) []).
  lia.
Defined.

(** C3 at two cells side by side: the point (7,3) lies in the second one. *)
Lemma visit_order_starts_in_start_cell_witness :
  (forall m nodes res start, 0 <= start < Z.of_nat (length nodes) ->
     head (tour_from m nodes res start) = Some start) /\
  (exists c, c ∈ cell_polygons no_stray two_cells (free_room 10 10) /\
             contains box_test c (mkPoint 7 3) = true) /\
  (exists (i : nat) cell,
     head (optimal_order no_stray two_cells first_vertex box_test tour_from
             (free_room 10 10) 1 (mkPoint 7 3)) = Some (Z.of_nat i) /\
     cell_polygons no_stray two_cells (free_room 10 10) !! i = Some cell /\
     contains box_test cell (mkPoint 7 3) = true).
Proof.
  assert (Htsp : forall m nodes res start,
             0 <= start < Z.of_nat (length nodes) ->
             head (tour_from m nodes res start) = Some start)
    by (intros; reflexivity).
  assert (Hin : exists c, c ∈ cell_polygons no_stray two_cells (free_room 10 10) /\
                          contains box_test c (mkPoint 7 3) = true).
  { exists [mkPoint 5 0; mkPoint 5 9; mkPoint 9 9; mkPoint 9 0].
    split; [|reflexivity]. apply list_elem_of_In. right. left. reflexivity. }
  split; [exact Htsp|]. split; [exact Hin|].
  exact (proj1 (visit_order_starts_in_start_cell no_stray two_cells first_vertex
                  box_test tour_from (free_room 10 10) 1 (mkPoint 7 3) Htsp) Hin).
Defined.

Lemma corners_of_black (m : Mat) :
  Forall (Forall (fun v => v = OBSTACLE)) m -> corners_of m = [].
Proof.
  intros H. unfold corners_of.
  replace (forallb (forallb (fun v => v =? 0)) m) with true; [reflexivity|].
  symmetry. apply forallb_forall. intros r Hr.
  apply forallb_forall. intros v Hv.
  rewrite Forall_forall in H. apply list_elem_of_In in Hr, Hv.
  specialize (H r Hr). rewrite Forall_forall in H. rewrite (H v Hv). reflexivity.
Qed.

Lemma no_free_cell_empty_path_witness :
  rectangular black_room /\ binary black_room /\ no_free black_room /\
  (decompose no_stray black_room = black_room /\
   cell_polygons no_stray corners_of black_room = [] /\
   forall fuel map_resolution starting_position map_origin fitting_circle_radius
          path_eps plan_for_footprint robot_to_fow_vector,
     getExplorationPath no_stray corners_of first_vertex
       (fun cell => whole_grid_box black_room) (fun cell => 3) box_test tour_from
       city_block straight_to (fun dy dx => 0%Q) shift_path
       fuel black_room [] map_resolution starting_position
       map_origin fitting_circle_radius path_eps plan_for_footprint
       robot_to_fow_vector = Some []).
Proof.
  assert (Hrect : rectangular black_room) by (repeat constructor).
  assert (Hbin : binary black_room).
  { unfold binary, black_room, OBSTACLE, FREE.
    repeat (constructor; try (left; reflexivity)). }
  assert (Hno : no_free black_room).
  { unfold no_free, black_room, FREE. repeat (constructor; try discriminate). }
  split; [exact Hrect|]. split; [exact Hbin|]. split; [exact Hno|].
  apply (no_free_cell_empty_path no_stray corners_of first_vertex
           (fun cell => whole_grid_box black_room) (fun cell => 3) box_test
           tour_from city_block straight_to (fun dy dx => 0%Q) shift_path
           black_room corners_of_black);
    try assumption.
  intros m path v res origin start. unfold shift_path. apply app_nil_r.
Defined.

(** C7 at the lines of the free 100x100 rectangle, seen from (0,0): the left
    edge of the upper line is the nearest corner. *)
Lemma stitcher_starts_at_nearest_corner_witness :
  head square100_lines = Some (mkLine (mkPoint 5 4) (mkPoint 94 4)) /\
  last square100_lines = Some (mkLine (mkPoint 5 99) (mkPoint 94 99)) /\
  entry_of city_block square100 1 (mkPoint 0 0)
    (mkLine (mkPoint 5 4) (mkPoint 94 4)) (mkLine (mkPoint 5 99) (mkPoint 94 99))
  = (true, true) /\
  stitch_cell city_block straight_to 90 square100 1 2 (mkPoint 0 0) []
    square100_lines
  = trace_lines straight_to 90 square100 1 2
      (mkStitch (mkPoint 5 4) true []) square100_lines.
Proof.
  split; [reflexivity|]. split; [reflexivity|].
  apply (stitcher_starts_at_nearest_corner city_block straight_to 90 square100 1 2
           (mkPoint 0 0) [] square100_lines
           (mkLine (mkPoint 5 4) (mkPoint 94 4))
           (mkLine (mkPoint 5 99) (mkPoint 94 99)) true true eq_refl eq_refl).
  intros [|] [|] Hne; try reflexivity. contradiction Hne. reflexivity.
Defined.

(** C8 at [pillar]: the free pixel right of the pillar in row 1 is painted,
    the separation of the IN event. *)
Lemma decompose_obstacles_superset_witness :
  pixel pillar 1 2 = Some 255 /\
  exists w, pixel (decompose no_stray pillar) 1 2 = Some w /\
            (255 = OBSTACLE -> w = OBSTACLE) /\
            (w = 255 \/ (255 = FREE /\ w = OBSTACLE)).
Proof.
  split; [reflexivity|].
  apply (decompose_obstacles_superset no_stray pillar 1 2 255). reflexivity.
Defined.

(** With a cell that spans the rows 1..98 only, as a contour that keeps off
    the border of the image gives it, the same loop makes 19 lines. *)
Lemma square100_inner_box_nineteen_lines :
  length <$> path_lines no_stray 100 square100 100 (1, 98, 1, 98) 5 = Some 19%nat.
Proof. vm_compute. reflexivity. Qed.

(** The free 20x10 rectangle of the specification's first scenario, R = 2:
    with the cell spanning the whole grid the lines lie in the rows 1, 3, 5,
    7 and 9 and run from x = 2 to x = 17, as the scenario says; they are five,
    where ceil((10 - 2R)/R) + 1 is four. *)
Lemma rectangle_20x10_lines :
  path_lines no_stray 50 (free_room 20 10) 20 (whole_grid_box (free_room 20 10)) 2
  = Some (map (fun y => mkLine (mkPoint 2 y) (mkPoint 17 y)) [1; 3; 5; 7; 9]) /\
  vertex_box [mkPoint 0 0; mkPoint 0 9; mkPoint 19 9; mkPoint 19 0]
  = whole_grid_box (free_room 20 10) /\
  (10 - 2 * 2 + 2 - 1) / 2 + 1 = 4.
Proof. repeat split; vm_compute; reflexivity. Qed.

(** The points of the path through that rectangle, from the start (1,1) with
    path_eps = 2: the upper line from left to right, the next one from right
    to left, and so on. *)
Lemma rectangle_20x10_path :
  fow_path no_stray corners_of first_vertex vertex_box (fun _ => 20) box_test
    tour_from city_block straight_to 50 (free_room 20 10) 1 (mkPoint 1 1) 2 2
  = Some
      (map (fun x => mkPoint x 1) [2; 4; 6; 8; 10; 12; 14; 16; 17]
       ++ map (fun x => mkPoint x 3) [17; 17; 15; 13; 11; 9; 7; 5; 3; 2]
       ++ map (fun x => mkPoint x 5) [2; 2; 4; 6; 8; 10; 12; 14; 16; 17]
       ++ map (fun x => mkPoint x 7) [17; 17; 15; 13; 11; 9; 7; 5; 3; 2]
       ++ map (fun x => mkPoint x 9) [2; 2; 4; 6; 8; 10; 12; 14; 16; 17]).
Proof. vm_compute. reflexivity. Qed.

(** C10 in a room with a wall around it: the OUT event of the last row tests
    the wall pixel in the last column, 11, of row 5 and reads column 12 of
    the twelve columns 0..11. *)
Lemma walled_room_stencil_reads :
  cols walled_room = 12%nat /\
  stencil_reads (sweep no_stray walled_room) = [(6, 10); (6, 11); (6, 12)].
Proof. split; vm_compute; reflexivity. Qed.

(** ** The further properties at concrete rooms *)

Lemma count_segments_obstacle_runs_witness :
  rectangular pillar /\ binary pillar /\
  pillar !! 1%nat = Some [255; 0; 255; 255] /\
  count_segments no_stray pillar 1 = obstacle_runs (after_first_free [255; 0; 255; 255]).
Proof.
  assert (Hrect : rectangular pillar) by (repeat constructor).
  assert (Hbin : binary pillar).
  { unfold binary, pillar, OBSTACLE, FREE.
    repeat (constructor; try (left; reflexivity); try (right; reflexivity)). }
  split; [exact Hrect|]. split; [exact Hbin|]. split; [reflexivity|].
  exact (proj1 (count_segments_obstacle_runs no_stray pillar 1 [255; 0; 255; 255]
                  Hrect Hbin eq_refl)).
Defined.

Lemma no_event_no_separation_witness :
  (forall y, (y_start (find_start no_stray right_wall) < y < rows right_wall)%nat ->
     count_segments no_stray right_wall y = n_start (find_start no_stray right_wall)) /\
  decompose no_stray right_wall = right_wall /\
  stencil_reads (sweep no_stray right_wall) = [].
Proof.
  assert (H : forall y,
             (y_start (find_start no_stray right_wall) < y < rows right_wall)%nat ->
             count_segments no_stray right_wall y
             = n_start (find_start no_stray right_wall)).
  { intros y Hy.
    change (y_start (find_start no_stray right_wall)) with 0%nat in Hy.
    change (rows right_wall) with 2%nat in Hy.
    assert (y = 1%nat) as -> by lia. reflexivity. }
  split; [exact H|].
  exact (no_event_no_separation no_stray right_wall H).
Defined.

Lemma separation_stops_at_obstacles_witness :
  [fenced_row] !! 0%nat = Some fenced_row /\
  fenced_row !! 1%nat = Some OBSTACLE /\
  (forall i, (1 < 3)%nat -> (i <= 1)%nat ->
     pixel (paint 7 [fenced_row] 0 3) 0 i = fenced_row !! i).
Proof.
  split; [reflexivity|]. split; [reflexivity|].
  exact (proj1 (proj2 (proj2 (separation_stops_at_obstacles 7 [fenced_row] 0 3 1
                                fenced_row eq_refl eq_refl)))).
Defined.

Lemma separation_fills_free_run_witness :
  (forall i, (1 < i < 3)%nat -> fenced_row !! i = Some FREE) /\
  (forall i, (3 < i < 5)%nat -> fenced_row !! i = Some FREE) /\
  (forall i, (1 < i < 3)%nat \/ (3 < i < 5)%nat ->
     pixel (paint 7 [fenced_row] 0 3) 0 i = Some OBSTACLE).
Proof.
  assert (Hl : forall i, (1 < i < 3)%nat -> fenced_row !! i = Some FREE).
  { intros i Hi. assert (i = 2%nat) as -> by lia. reflexivity. }
  assert (Hr : forall i, (3 < i < 5)%nat -> fenced_row !! i = Some FREE).
  { intros i Hi. assert (i = 4%nat) as -> by lia. reflexivity. }
  split; [exact Hl|]. split; [exact Hr|].
  apply (separation_fills_free_run 7 [fenced_row] 0 3 1 5 fenced_row eq_refl);
    [lia | exact Hl | exact Hr].
Defined.

Lemma min_index_last_containing_witness :
  contains box_test [mkPoint 0 0; mkPoint 0 9; mkPoint 5 9; mkPoint 5 0]
           (mkPoint 5 3) = true /\
  exists (i : nat) c',
    min_index box_test touching_cells (mkPoint 5 3) = Z.of_nat i /\
    touching_cells !! i = Some c' /\ contains box_test c' (mkPoint 5 3) = true /\
    (0 <= i)%nat.
Proof.
  split; [reflexivity|].
  apply (min_index_last_containing box_test touching_cells (mkPoint 5 3) 0
           [mkPoint 0 0; mkPoint 0 9; mkPoint 5 9; mkPoint 5 0]); reflexivity.
Defined.

Lemma line_edges_at_free_pixels_witness :
  at_ no_stray walled_room 3 1 = FREE /\ at_ no_stray walled_room 3 10 = FREE /\
  horizontal_line no_stray walled_room 12 2 0 11 3
  = mkLine (mkPoint (1 + 2) 3) (mkPoint (10 - 2) 3).
Proof.
  split; [reflexivity|]. split; [reflexivity|].
  apply (line_edges_at_free_pixels no_stray walled_room 12 2 0 11 3 1 10);
    try reflexivity; try lia.
  - intros x Hx. assert (x = 0) as -> by lia. vm_compute. discriminate.
  - intros x Hx. assert (x = 11) as -> by lia. vm_compute. discriminate.
Defined.

Lemma line_rows_arithmetic_witness :
  1 <= 5 /\
  path_lines no_stray 100 square100 100 (0, 99, 0, 99) 5
  = Some (map (horizontal_line no_stray square100 100 5 0 99)
            (if first_row 0 99 5 <=? 99
             then map (fun k => first_row 0 99 5 + k * 5)
                      (seqZ 0 ((99 - first_row 0 99 5) / 5 + 1))
             else [first_row 0 99 5])).
Proof.
  split; [lia|].
  apply (line_rows_arithmetic no_stray 100 square100 100 0 99 0 99 5);
    [lia | reflexivity].
Defined.



Lemma walk_points_between_witness :
  1 <= 2 /\ Z.max 1 (17 - 2) < Z.of_nat 20 /\
  exists to_right to_left,
    walk_right 20 (mkPoint 2 1) (mkPoint 17 1) 2 2 = Some to_right /\
    walk_left 20 (mkPoint 2 1) (mkPoint 17 1) 2 (- 2) = Some to_left /\
    Z.of_nat (length to_right) = Z.max 0 ((17 - 2 - 1) / 2) /\
    length to_left = length to_right.
Proof.
  split; [lia|]. split; [lia|].
  destruct (walk_points_between 20 (mkPoint 2 1) (mkPoint 17 1) 2
              ltac:(lia) ltac:(cbn; lia))
    as (a & b & H1 & H2 & H3 & H4 & _).
  exists a, b. split; [exact H1|]. split; [exact H2|]. split; [exact H3 | exact H4].
Defined.

Lemma trace_line_adds_route_and_pass_witness :
  1 <= 2 /\ line_fits 20 (mkLine (mkPoint 2 1) (mkPoint 17 1)) /\
  exists via,
    sublist via (straight_to corridor (mkPoint 0 0) (mkPoint 2 1) 1) /\
    trace_line straight_to 20 corridor 1 2 (mkStitch (mkPoint 0 0) true [])
      (mkLine (mkPoint 2 1) (mkPoint 17 1))
    = Some (mkStitch (mkPoint 17 1) false
              ([] ++ via ++ pass 2 true (mkLine (mkPoint 2 1) (mkPoint 17 1)))).
Proof.
  assert (Hfit : line_fits 20 (mkLine (mkPoint 2 1) (mkPoint 17 1)))
    by (unfold line_fits; cbn; lia).
  split; [lia|]. split; [exact Hfit|].
  apply (trace_line_adds_route_and_pass straight_to 20 corridor 1 2
           (mkStitch (mkPoint 0 0) true []) (mkLine (mkPoint 2 1) (mkPoint 17 1)));
    [lia | exact Hfit].
Defined.

Lemma cell_path_is_serpentine_witness :
  1 <= 2 /\ Forall (line_fits 90) square100_lines /\
  exists s pts,
    stitch_cell city_block straight_to 90 square100 1 2 (mkPoint 0 0) []
      square100_lines = Some s /\
    fow_middlepoint_path s = [] ++ pts /\
    last (fow_middlepoint_path s) = Some (robot_pos s).
Proof.
  assert (Hfit : Forall (line_fits 90) square100_lines).
  { unfold square100_lines. apply Forall_forall. intros l Hl.
    apply list_elem_of_In, in_map_iff in Hl as (k & <- & _).
    unfold line_fits. cbn [left_edge_ right_edge_ pt_x]. lia. }
  split; [lia|]. split; [exact Hfit|].
  destruct (cell_path_is_serpentine city_block straight_to 90 square100 1 2
              (mkPoint 0 0) [] square100_lines
              (mkLine (mkPoint 5 4) (mkPoint 94 4))
              (mkLine (mkPoint 5 99) (mkPoint 94 99))
              ltac:(lia) Hfit eq_refl eq_refl)
    as (s & pts & H1 & H2 & _ & H4 & _).
  exists s, pts. split; [exact H1|]. split; [exact H2 | exact H4].
Defined.

Lemma returned_pose_of_waypoint_witness :
  fow_path no_stray corners_of first_vertex vertex_box (fun _ => 6) box_test
    tour_from city_block straight_to 20 (free_room 6 3) 1 (mkPoint 0 0) 1 3
  = Some [mkPoint 1 1; mkPoint 4 1; mkPoint 4 2; mkPoint 1 2] /\
  exists q out,
    [mkPoint 1 1; mkPoint 4 1; mkPoint 4 2; mkPoint 1 2] !! ((3 + 1) mod 4)%nat
    = Some q /\
    getExplorationPath no_stray corners_of first_vertex vertex_box (fun _ => 6)
      box_test tour_from city_block straight_to (fun dy dx => inject_Z dy)
      shift_path 20 (free_room 6 3) [] 1 (mkPoint 0 0) (0%Q, 0%Q) 1 3 true
      (0%Q, 0%Q) = Some out /\
    length out = 4%nat /\
    out !! 3%nat
    = Some (mkPose (inject_Z 1 * 1 + 0)%Q (inject_Z 2 * 1 + 0)%Q
                   (inject_Z (pt_y q - 2))).
Proof.
  assert (H : fow_path no_stray corners_of first_vertex vertex_box (fun _ => 6)
                box_test tour_from city_block straight_to 20 (free_room 6 3) 1
                (mkPoint 0 0) 1 3
              = Some [mkPoint 1 1; mkPoint 4 1; mkPoint 4 2; mkPoint 1 2])
    by (vm_compute; reflexivity).
  split; [exact H|].
  destruct (returned_pose_of_waypoint no_stray corners_of first_vertex vertex_box
              (fun _ => 6) box_test tour_from city_block straight_to
              (fun dy dx => inject_Z dy) shift_path 20 (free_room 6 3) [] 1
              (mkPoint 0 0) (0%Q, 0%Q) 1 3 (0%Q, 0%Q)
              [mkPoint 1 1; mkPoint 4 1; mkPoint 4 2; mkPoint 1 2] 3
              (mkPoint 1 2) H eq_refl)
    as (q & out & H1 & H2 & H3 & _ & H5).
  exists q, out. split; [exact H1|]. split; [exact H2|].
  split; [exact H3 | exact H5].
Defined.

Lemma planner_ends_witness :
  1 <= fow_radius_as_int 2 /\ 1 <= 2 /\
  exists poses,
    settles (fun fuel =>
               getExplorationPath no_stray two_cells first_vertex vertex_box
                 (fun _ => 10) box_test tour_from city_block straight_to
                 (fun dy dx => 0%Q) shift_path fuel (free_room 10 10) [] 1
                 (mkPoint 1 1) (0%Q, 0%Q) 2 2 true (0%Q, 0%Q)) poses.
Proof.
  assert (HR : 1 <= fow_radius_as_int 2) by (vm_compute; discriminate).
  split; [exact HR|]. split; [lia|].
  apply (planner_ends no_stray two_cells first_vertex vertex_box (fun _ => 10)
           box_test tour_from city_block straight_to (fun dy dx => 0%Q) shift_path
           (free_room 10 10) [] 1 (mkPoint 1 1) (0%Q, 0%Q) 2 2 true (0%Q, 0%Q) HR);
    [lia|].
  intros cell Hcell.
  change (length (cell_polygons no_stray two_cells (free_room 10 10)))
    with 2%nat in *.
  destruct cell as [|[|cell]]; [exists 0 | exists 1 | lia];
    (split; [reflexivity | lia]).
Defined.

Lemma n_start_is_count_of_start_slice_witness :
  rectangular dead_end /\ binary dead_end /\
  n_start (find_start no_stray dead_end)
  = count_segments no_stray dead_end (y_start (find_start no_stray dead_end)).
Proof.
  assert (Hrect : rectangular dead_end) by (repeat constructor).
  assert (Hbin : binary dead_end).
  { unfold binary, dead_end, OBSTACLE, FREE.
    repeat (constructor; try (left; reflexivity); try (right; reflexivity)). }
  split; [exact Hrect|]. split; [exact Hbin|].
  apply (n_start_is_count_of_start_slice no_stray dead_end 0 [0; 255; 255; 0]
           Hrect Hbin eq_refl eq_refl).
  intros y' r' Hlt. lia.
Defined.

(** C9: the resolution 0.05 reaches the planner as a [float], and the float
    nearest to 0.05 is 13421773 / 2^28.  With it and the origin (-2.5, -2.5)
    the pose (100, 80) is not converted to (2.5, 1.5): the doubles of lines
    527 and 528 differ from 2.5 and 1.5, and so do the rationals of the
    model. *)
Lemma footprint_pose_at_float_resolution :
  binary32 resolution_0_05f_value /\
  (Qabs (resolution_0_05f_value - 0.05) <= 1 # 536870912)%Q /\
  binary64_is resolution_0_05f resolution_0_05f_value /\
  (world_coordinate 100 resolution_0_05f (-2.5) =? 2.5)%float = false /\
  (world_coordinate 80 resolution_0_05f (-2.5) =? 1.5)%float = false /\
  ~ (pose_x (to_world resolution_0_05f_value ((-2.5)%Q, (-2.5)%Q)
               (mkPose 100 80 0)) == 2.5)%Q /\
  ~ (pose_y (to_world resolution_0_05f_value ((-2.5)%Q, (-2.5)%Q)
               (mkPose 100 80 0)) == 1.5)%Q.
Proof.
  split.
  { exists 13421773, (-28). split; [reflexivity|]. split; [lia|].
    vm_compute. reflexivity. }
  split; [vm_compute; discriminate|].
  split; [vm_compute; reflexivity|].
  split; [vm_compute; reflexivity|].
  split; [vm_compute; reflexivity|].
  split; vm_compute; discriminate.
Qed.

(** C9 at the free room of 6 columns and 3 rows, R = 1 and path_eps = 3:
    the second pose of the path, for two offset vectors. *)
Lemma footprint_path_is_scaled_fow_path_witness :
  fow_path no_stray corners_of first_vertex vertex_box (fun _ => 6) box_test
    tour_from city_block straight_to 20 (free_room 6 3) resolution_0_05f_value
    (mkPoint 0 0) 1 3
  = Some [mkPoint 1 1; mkPoint 4 1; mkPoint 4 2; mkPoint 1 2] /\
  exists out,
    getExplorationPath no_stray corners_of first_vertex vertex_box (fun _ => 6)
      box_test tour_from city_block straight_to (fun dy dx => inject_Z dy)
      shift_path 20 (free_room 6 3) [] resolution_0_05f_value (mkPoint 0 0)
      ((-2.5)%Q, (-2.5)%Q) 1 3 true (0%Q, 0%Q) = Some out /\
    getExplorationPath no_stray corners_of first_vertex vertex_box (fun _ => 6)
      box_test tour_from city_block straight_to (fun dy dx => inject_Z dy)
      shift_path 20 (free_room 6 3) [] resolution_0_05f_value (mkPoint 0 0)
      ((-2.5)%Q, (-2.5)%Q) 1 3 true (1%Q, 2%Q) = Some out /\
    length out = 4%nat /\
    out !! 1%nat
    = Some (mkPose (inject_Z 4 * resolution_0_05f_value + -2.5)%Q
                   (inject_Z 1 * resolution_0_05f_value + -2.5)%Q
                   (inject_Z 1)).
Proof.
  assert (H : fow_path no_stray corners_of first_vertex vertex_box (fun _ => 6)
                box_test tour_from city_block straight_to 20 (free_room 6 3)
                resolution_0_05f_value (mkPoint 0 0) 1 3
              = Some [mkPoint 1 1; mkPoint 4 1; mkPoint 4 2; mkPoint 1 2])
    by (vm_compute; reflexivity).
  split; [exact H|].
  destruct (footprint_path_is_scaled_fow_path no_stray corners_of first_vertex
              vertex_box (fun _ => 6) box_test tour_from city_block straight_to
              (fun dy dx => inject_Z dy) shift_path 20 (free_room 6 3) []
              resolution_0_05f_value (mkPoint 0 0) ((-2.5)%Q, (-2.5)%Q) 1 3
              [mkPoint 1 1; mkPoint 4 1; mkPoint 4 2; mkPoint 1 2] H)
    as [(out & Hout & Hlen & _ & Hpose) _].
  exists out. split; [exact (Hout (0%Q, 0%Q))|].
  split; [exact (Hout (1%Q, 2%Q))|].
  split; [exact Hlen|].
  exact (Hpose 1%nat (inject_Z 4) (inject_Z 1) (inject_Z 1) eq_refl).
Defined.

(** Were the resolution a [double], the claim's values would result: with the
    double nearest to 0.05 the products 100 * 0.05 and 80 * 0.05 round to 5
    and 4. *)
Lemma footprint_pose_at_double_resolution :
  (world_coordinate 100 0x1.999999999999ap-5 (-2.5) =? 2.5)%float = true /\
  (world_coordinate 80 0x1.999999999999ap-5 (-2.5) =? 1.5)%float = true.
Proof. split; vm_compute; reflexivity. Qed.
